(** * lsd.persistence.mongodb_rag_provider

    A shallow embedding of [MongoDbSubRag] and [MongoDbRagProvider]
    (src/lsd/persistence/mongodb_rag_provider.py) together with the part of
    their collaborators that the code relies on: Python dictionaries, the
    [networkx] graph container, [daisy]'s regions of interest and the
    MongoDB collections reached through [pymongo].

    Python dictionaries are finite maps, exceptions are an explicit result
    type, and every interaction with the database server goes through a
    state monad over a [world] that holds the server's content and the trace
    of the calls it has received. *)

From Stdlib Require Import ZArith Lia Ascii String.
From stdpp Require Import base option list gmap strings.

Local Open Scope string_scope.
Local Open Scope list_scope.
Local Open Scope Z_scope.

(** ** Values, documents and exceptions *)

(** Attribute values: a Python [int], a Python [float] or a text.  A float
    is represented by the rational number it denotes, [VFloat n d] being
    [n / d]; every finite float is such a quotient, and truncation and
    comparison are exact on it. *)
Inductive value :=
| VInt (z : Z)
| VFloat (n : Z) (d : positive)
| VStr (s : string).

#[global] Instance value_eq_dec : EqDecision value.
Proof. solve_decision. Defined.

(** A Python [dict] with string keys: an attribute dictionary of the graph,
    or a document of a collection. *)
Abbreviation doc := (gmap string value).

(** One entry of [BulkWriteError.details['writeErrors']]: the position of
    the rejected document in the batch, and the document. *)
Record write_error := WriteError { index : nat; op : doc }.

Inductive exn :=
| RuntimeError (msg : string)
| AssertionError (msg : string)
| KeyError (key : value)
| ValueError
| InvalidOperation
| BulkWriteError (details : list write_error).

Inductive result (A : Type) :=
| Ok (a : A)
| Raise (e : exn).
Arguments Ok {A} a.
Arguments Raise {A} e.

Definition rbind {A B} (r : result A) (k : A -> result B) : result B :=
  match r with
  | Ok a => k a
  | Raise e => Raise e
  end.

Declare Scope result_scope.
Delimit Scope result_scope with res.
Notation "x <- r ;; k" := (rbind r (fun x => k))
  (at level 100, r at next level, right associativity) : result_scope.

(** [d[key]] *)
Definition getitem (d : doc) (key : string) : result value :=
  match d !! key with
  | Some v => Ok v
  | None => Raise (KeyError (VStr key))
  end.

(** White space as [int] strips it from both ends of a text. *)
Definition is_space (a : ascii) : bool :=
  let n := Z.of_N (N_of_ascii a) in
  ((9 <=? n) && (n <=? 13)) || ((28 <=? n) && (n <=? 32)).

Definition digit_of (a : ascii) : option Z :=
  let n := Z.of_N (N_of_ascii a) in
  if (48 <=? n) && (n <=? 57) then Some (n - 48) else None.

Fixpoint lstrip (s : list ascii) : list ascii :=
  match s with
  | a :: s' => if is_space a then lstrip s' else s
  | [] => []
  end.

Definition strip (s : list ascii) : list ascii :=
  rev (lstrip (rev (lstrip s))).

(** Decimal digits, single underscores allowed between two digits.
    [after_digit] tells whether the character before was a digit. *)
Fixpoint digits (acc : Z) (after_digit : bool) (s : list ascii) : option Z :=
  match s with
  | [] => if after_digit then Some acc else None
  | a :: s' =>
      match digit_of a with
      | Some k => digits (acc * 10 + k) true s'
      | None =>
          if bool_decide (a = "_"%char) && after_digit
          then digits acc false s'
          else None
      end
  end.

(** The integer a text denotes in base ten, when it denotes one: optional
    white space around an optional sign followed by digits. *)
Definition parse_int (s : string) : option Z :=
  match strip (list_ascii_of_string s) with
  | "+"%char :: r => digits 0 false r
  | "-"%char :: r => Z.opp <$> digits 0 false r
  | r => digits 0 false r
  end.

(** [int(x)]: an integer is itself, a float is truncated toward zero, a
    text is parsed and raises [ValueError] when it is not an integer
    literal. *)
Definition int (x : value) : result Z :=
  match x with
  | VInt z => Ok z
  | VFloat n d => Ok (Z.quot n (Z.pos d))
  | VStr s =>
      match parse_int s with
      | Some z => Ok z
      | None => Raise ValueError
      end
  end.

(** ** The MongoDB server, as seen through pymongo *)

(** [IndexModel]: [create_index(keys, name=..., unique=...)]. *)
Record IndexModel := {
  ix_name : string;
  ix_keys : list string;
  ix_unique : bool
}.

Record collection := {
  documents : list doc;
  indexes : list IndexModel
}.

Definition empty_collection : collection :=
  {| documents := []; indexes := [] |}.

(** A database maps collection names to collections; a server maps database
    names to databases.  A name that is not bound does not exist yet:
    MongoDB creates databases and collections on their first write.  The
    ['_id'] that the server gives to a document inserted without one is
    left out: no filter and no index of this code refers to it.  A server
    returns it with the document, as one more field; the properties that
    relate what was inserted to what is read back leave that field
    aside. *)
Abbreviation server := (gmap string (gmap string collection)).

(** Filters of [find]: the operators the provider uses. *)
Inductive cond :=
| Gte (b : Z)            (* '$gte' *)
| Lt (e : Z)             (* '$lt' *)
| In_ (vs : list Z).     (* '$in' *)

Definition query := list (string * list cond).

(** The calls a server receives. *)
Inductive event :=
| EConnect (host : option string)
| EClose
| EDropDatabase (db : string)
| EListDatabaseNames
| ECreateIndex (db coll : string) (ix : IndexModel)
| EFind (db coll : string) (q : query)
| EInsertMany (db coll : string) (docs : list doc) (ordered : bool).

Record world := World {
  store : server;
  trace : list event
}.

Definition log (e : event) (w : world) : world :=
  {| store := store w; trace := trace w ++ [e] |}.

(** Comparison operators compare numbers by value, whatever their
    representation, and match only numbers: a text value never satisfies an
    integer bound, and an absent field never does. *)
Definition matches_cond (c : cond) (v : option value) : bool :=
  match v with
  | Some (VInt z) =>
      match c with
      | Gte b => b <=? z
      | Lt e => z <? e
      | In_ vs => bool_decide (z ∈ vs)
      end
  | Some (VFloat n d) =>
      match c with
      | Gte b => b * Z.pos d <=? n
      | Lt e => n <? e * Z.pos d
      | In_ vs => existsb (fun z => n =? z * Z.pos d) vs
      end
  | _ => false
  end.

Definition matches (q : query) (d : doc) : bool :=
  forallb (fun '(k, cs) => forallb (fun c => matches_cond c (d !! k)) cs) q.

Definition get_collection (s : server) (db coll : string) : collection :=
  default empty_collection (default ∅ (s !! db) !! coll).

Definition set_collection (s : server) (db coll : string) (c : collection)
    : server :=
  <[db := <[coll := c]> (default ∅ (s !! db))]> s.

(** The value of a document under an index: an absent field counts as null.
    Keys are compared as the documents hold them.  The indexed fields of
    this schema that are unique are ids, which are integers, so two
    representations of one number never meet in a unique index. *)
Definition key_of (ks : list string) (d : doc) : list (option value) :=
  (fun k => d !! k) <$> ks.

(** Does inserting [d] violate a unique index of [c]? *)
Definition conflicts (c : collection) (d : doc) : bool :=
  existsb (fun ix =>
    ix_unique ix &&
    existsb (fun d' => bool_decide (key_of (ix_keys ix) d' = key_of (ix_keys ix) d))
      (documents c))
    (indexes c).

Definition push (d : doc) (c : collection) : collection :=
  {| documents := documents c ++ [d]; indexes := indexes c |}.

(** The server's treatment of a batch.  Ordered: the documents are inserted
    in turn and the first rejected one ends the batch.  Unordered: every
    document is tried, the rejected ones are collected. *)
Fixpoint insert_batch (ordered : bool) (i : nat) (ds : list doc) (c : collection)
    : collection * list write_error :=
  match ds with
  | [] => (c, [])
  | d :: ds' =>
      if conflicts c d then
        if ordered then (c, [WriteError i d])
        else
          let '(c', errs) := insert_batch ordered (S i) ds' c in
          (c', WriteError i d :: errs)
      else insert_batch ordered (S i) ds' (push d c)
  end.

(** ** Calls on the server: a state monad with exceptions *)

Definition M (A : Type) : Type := world -> result A * world.

Definition ret {A} (a : A) : M A := fun w => (Ok a, w).

Definition raise {A} (e : exn) : M A := fun w => (Raise e, w).

Definition bind {A B} (m : M A) (k : A -> M B) : M B :=
  fun w =>
    match m w with
    | (Ok a, w') => k a w'
    | (Raise e, w') => (Raise e, w')
    end.

Definition lift {A} (r : result A) : M A := fun w => (r, w).

(** [try: body finally: cleanup] *)
Definition try_finally {A} (body : M A) (cleanup : M unit) : M A :=
  fun w =>
    match body w with
    | (r, w') =>
        match cleanup w' with
        | (Ok _, w'') => (r, w'')
        | (Raise e, w'') => (Raise e, w'')
        end
    end.

Declare Scope M_scope.
Delimit Scope M_scope with M.
Notation "x <-- m ;; k" := (bind m (fun x => k))
  (at level 100, m at next level, right associativity) : M_scope.
Notation "m ;;; k" := (bind m (fun _ => k))
  (at level 100, right associativity) : M_scope.

(** [MongoClient(host)] and [client.close()] *)
Definition MongoClient (host : option string) : M unit :=
  fun w => (Ok tt, log (EConnect host) w).

Definition close : M unit :=
  fun w => (Ok tt, log EClose w).

(** [client.drop_database(name)] *)
Definition drop_database (name : string) : M unit :=
  fun w =>
    (Ok tt, {| store := delete name (store w);
               trace := trace w ++ [EDropDatabase name] |}).

(** [client.list_database_names()] *)
Definition list_database_names : M (list string) :=
  fun w => (Ok (elements (dom (store w))), log EListDatabaseNames w).

(** [collection.create_index(keys, name=..., unique=...)]: an index whose
    name is already taken is left as it is. *)
Definition add_index (ix : IndexModel) (c : collection) : collection :=
  if existsb (fun ix' => bool_decide (ix_name ix' = ix_name ix)) (indexes c)
  then c
  else {| documents := documents c; indexes := indexes c ++ [ix] |}.

Definition create_index (db coll : string) (keys : list string) (name : string)
    (unique : bool) : M unit :=
  fun w =>
    let ix := {| ix_name := name; ix_keys := keys; ix_unique := unique |} in
    (Ok tt,
     {| store := set_collection (store w) db coll
                   (add_index ix (get_collection (store w) db coll));
        trace := trace w ++ [ECreateIndex db coll ix] |}).

(** [collection.find(filter)], with the cursor read to its end. *)
Definition find (db coll : string) (q : query) : M (list doc) :=
  fun w =>
    (Ok (filter (fun d => matches q d = true) (documents (get_collection (store w) db coll))),
     log (EFind db coll q) w).

(** [collection.insert_many(documents, ordered=True)]: pymongo refuses an
    empty batch, and raises [BulkWriteError] after the server has treated
    the batch when some document was rejected. *)
Definition insert_many (db coll : string) (docs : list doc) (ordered : bool)
    : M unit :=
  fun w =>
    match docs with
    | [] => (Raise InvalidOperation, w)
    | _ :: _ =>
        let '(c, errs) := insert_batch ordered 0 docs (get_collection (store w) db coll) in
        let w' := {| store := set_collection (store w) db coll c;
                     trace := trace w ++ [EInsertMany db coll docs ordered] |} in
        match errs with
        | [] => (Ok tt, w')
        | _ :: _ => (Raise (BulkWriteError errs), w')
        end
    end.

(** ** daisy: regions of interest *)

(** A region is a half-open interval [(begin, end)] per axis. *)
Record Roi := { intervals : list (Z * Z) }.

Definition get_begin (roi : Roi) : list Z := fst <$> intervals roi.
Definition get_end (roi : Roi) : list Z := snd <$> intervals roi.
Definition dims (roi : Roi) : nat := length (intervals roi).

(** [roi.contains(coordinate)]: [begin <= p < end] on every axis that both
    the region and the coordinate have. *)
Definition contains (roi : Roi) (p : list Z) : bool :=
  forallb (fun '(x, (b, e)) => (b <=? x) && (x <? e)) (zip p (intervals roi)).

(** Two regions are separated when their intervals are disjoint along at
    least one axis: a test that decides that two boxes do not overlap. *)
Definition separated (r1 r2 : Roi) : bool :=
  existsb (fun '((b1, e1), (b2, e2)) => (e2 <=? b1) || (e1 <=? b2))
    (zip (intervals r1) (intervals r2)).

(** [Coordinate((z, y, x))]: every component goes through [int]. *)
Fixpoint Coordinate (vs : list value) : result (list Z) :=
  match vs with
  | [] => Ok []
  | v :: vs' =>
      (z <- int v ;; zs <- Coordinate vs' ;; Ok (z :: zs))%res
  end.

(** [a, b, c = xs] *)
Definition unpack3 (xs : list Z) : result (Z * Z * Z) :=
  match xs with
  | [a; b; c] => Ok (a, b, c)
  | _ => Raise ValueError
  end.

(** ** networkx: the graph container *)

(** Modelled from the spec: the class [SubRag] of [lsd.shared_rag_provider],
    which [MongoDbSubRag] extends, is not among the sources.  By the
    specification a sub-graph holds nodes (id to attributes) and edges
    ((u, v) to attributes), and an extraction inserts a node without
    attributes for every edge endpoint that was not fetched.  The container
    is a [networkx.Graph]: the node dictionary (id to attribute dictionary,
    in insertion order) and the edges as [edges(data=True)] reports them,
    every undirected edge once, in one of its orientations. *)
Record Graph := {
  node : list (Z * doc);
  edges : list (Z * Z * doc)
}.

Definition empty_graph : Graph := {| node := []; edges := [] |}.

(** [self.node[n]], as an option. *)
Fixpoint lookup_node (n : Z) (l : list (Z * doc)) : option doc :=
  match l with
  | [] => None
  | (m, d) :: l' => if decide (m = n) then Some d else lookup_node n l'
  end.

(** [add_node(n, **attrs)]: a new node is appended, a known node has its
    dictionary updated. *)
Fixpoint add_node (n : Z) (attrs : doc) (l : list (Z * doc)) : list (Z * doc) :=
  match l with
  | [] => [(n, attrs)]
  | (m, d) :: l' =>
      if decide (m = n) then (m, attrs ∪ d) :: l'
      else (m, d) :: add_node n attrs l'
  end.

(** What [add_edge] does to an endpoint: it is created, without attributes,
    when the graph does not have it. *)
Definition ensure_node (n : Z) (l : list (Z * doc)) : list (Z * doc) :=
  match lookup_node n l with
  | Some _ => l
  | None => l ++ [(n, ∅)]
  end.

(** The graph is undirected: [(u, v)] and [(v, u)] name the same edge. *)
Definition same_edge (u v a b : Z) : bool :=
  bool_decide ((u = a ∧ v = b) ∨ (u = b ∧ v = a)).

(** [add_edge(u, v, **dd)] on the edges: the attributes of a known edge
    are updated, a new edge is appended. *)
Fixpoint put_edge (u v : Z) (dd : doc) (l : list (Z * Z * doc))
    : list (Z * Z * doc) :=
  match l with
  | [] => [(u, v, dd)]
  | (a, b, d) :: l' =>
      if same_edge u v a b then (a, b, dd ∪ d) :: l'
      else (a, b, d) :: put_edge u v dd l'
  end.

Definition add_edge (g : Graph) (e : Z * Z * doc) : Graph :=
  let '(u, v, dd) := e in
  {| node := ensure_node v (ensure_node u (node g));
     edges := put_edge u v dd (edges g) |}.

Definition add_nodes_from (g : Graph) (ns : list (Z * doc)) : Graph :=
  foldl (fun g '(n, attrs) =>
           {| node := add_node n attrs (node g); edges := edges g |}) g ns.

Definition add_edges_from (g : Graph) (es : list (Z * Z * doc)) : Graph :=
  foldl add_edge g es.

(** ** class MongoDbSubRag *)

Module MongoDbSubRag.

Record t := {
  graph : Graph;
  db_name : string;
  host : option string;
  mode : string
}.

(** [__init__]: an empty graph and a client of its own. *)
Definition __init__ (db_name : string) (host : option string) (mode : string)
    : M t :=
  (MongoClient host ;;;
   ret {| graph := empty_graph; db_name := db_name; host := host;
          mode := mode |})%M.

Definition _contains (self : t) (roi : Roi) (edge : Z * Z) : result bool :=
  let '(u, v) := edge in
  match lookup_node u (node (graph self)) with
  | None => Raise (KeyError (VInt u))
  | Some min_node =>
      match min_node !! "center_z" with
      | None => Ok false
      | Some cz =>
          (cy <- getitem min_node "center_y" ;;
           cx <- getitem min_node "center_x" ;;
           min_node_center <- Coordinate [cz; cy; cx] ;;
           Ok (contains roi min_node_center))%res
      end
  end.

(** One turn of the loop of [sync_edges]: [None] when the edge is skipped
    ([continue]), the record that is appended otherwise. *)
Definition sync_edges_body (self : t) (roi : Roi) (e : Z * Z * doc)
    : result (option doc) :=
  let '(u0, v0, data) := e in
  let u := Z.min u0 v0 in
  let v := Z.max u0 v0 in
  (c <- _contains self roi (u, v) ;;
   if negb c then Ok None
   else Ok (Some (data ∪ <["u" := VInt u]> (<["v" := VInt v]> ∅))))%res.

Fixpoint sync_edges_loop (self : t) (roi : Roi) (es : list (Z * Z * doc))
    (edges : list doc) : result (list doc) :=
  match es with
  | [] => Ok edges
  | e :: es' =>
      (r <- sync_edges_body self roi e ;;
       sync_edges_loop self roi es'
         (match r with Some edge => edges ++ [edge] | None => edges end))%res
  end.

(** The [except BulkWriteError] clause reports the details and raises the
    exception again: the call behaves as [insert_many] itself. *)
Definition sync_edges (self : t) (roi : Roi) : M unit :=
  if decide (mode self = "r") then
    raise (RuntimeError "Trying to write to read-only DB")
  else
    (edges <-- lift (sync_edges_loop self roi (edges (graph self)) []) ;;
     if (length edges =? 0)%nat then ret tt
     else insert_many (db_name self) "edges" edges true)%M.

Definition sync_nodes (self : t) : M unit :=
  if decide (mode self = "r") then
    raise (RuntimeError "Trying to write to read-only DB")
  else
    let nodes :=
      (fun '(node_id, data) => data ∪ <["id" := VInt node_id]> (∅ : doc))
        <$> node (graph self) in
    if (length nodes =? 0)%nat then ret tt
    else insert_many (db_name self) "nodes" nodes true.

End MongoDbSubRag.

(** ** class MongoDbRagProvider *)

Module MongoDbRagProvider.

(** The attributes [client], [database], [nodes] and [edges] are handles:
    they are bound by [__connect] and [__open_db] and set back to [None]
    by [__disconnect].  Of these only the connection reaches the server;
    a collection handle is the pair of a database and a collection name. *)
Record t := {
  db_name : string;
  host : option string;
  mode : string
}.

Definition __connect (self : t) : M unit := MongoClient (host self).

Definition __disconnect (self : t) : M unit := close.

Definition __setup_db (self : t) : M unit :=
  (create_index (db_name self) "nodes"
     ["center_z"; "center_y"; "center_x"] "position" false ;;;
   create_index (db_name self) "nodes" ["id"] "id" true ;;;
   create_index (db_name self) "edges" ["u"; "v"] "incident" true)%M.

Definition __init__ (db_name : string) (host : option string) (mode : string)
    : M t :=
  let self := {| db_name := db_name; host := host; mode := mode |} in
  (try_finally
     (__connect self ;;;
      (if decide (mode = "w") then drop_database db_name else ret tt) ;;;
      names <-- list_database_names ;;
      if bool_decide (db_name ∈ names) then ret tt else __setup_db self)
     (__disconnect self) ;;;
   ret self)%M.

Definition __read_nodes (self : t) (roi : Roi) : M (list doc) :=
  (b <-- lift (unpack3 (get_begin roi)) ;;
   e <-- lift (unpack3 (get_end roi)) ;;
   let '(bz, by_, bx) := b in
   let '(ez, ey, ex) := e in
   find (db_name self) "nodes"
     [("center_z", [Gte bz; Lt ez]);
      ("center_y", [Gte by_; Lt ey]);
      ("center_x", [Gte bx; Lt ex])])%M.

(** [del dictionary[key]] for every key, in turn. *)
Fixpoint __remove_keys (dictionary : doc) (keys : list string) : result doc :=
  match keys with
  | [] => Ok dictionary
  | key :: keys' =>
      match dictionary !! key with
      | None => Raise (KeyError (VStr key))
      | Some _ => __remove_keys (delete key dictionary) keys'
      end
  end.

(** [[f(x) for x in xs]] with an [f] that may raise. *)
Fixpoint comprehension {A B} (f : A -> result B) (xs : list A)
    : result (list B) :=
  match xs with
  | [] => Ok []
  | x :: xs' => (y <- f x ;; ys <- comprehension f xs' ;; Ok (y :: ys))%res
  end.

(** A field read as a node id.  The graph of this development is keyed by
    integers, so the field has to be one; the source takes the field as it
    is, and puts whatever it holds into the graph.  The properties of
    [__getitem__] that depend on the id of a document are stated for
    documents whose id fields are integers, where this reading never
    fails. *)
Definition node_id (x : value) : result Z :=
  match x with
  | VInt z => Ok z
  | _ => Raise ValueError
  end.

(** [(n['id'], self.__remove_keys(n, ['id']))] *)
Definition node_item (n : doc) : result (Z * doc) :=
  (i <- getitem n "id" ;;
   i <- node_id i ;;
   attrs <- __remove_keys n ["id"] ;;
   Ok (i, attrs))%res.

(** [(e['u'], e['v'], self.__remove_keys(e, ['u', 'v']))] *)
Definition edge_item (e : doc) : result (Z * Z * doc) :=
  (u <- getitem e "u" ;;
   u <- node_id u ;;
   v <- getitem e "v" ;;
   v <- node_id v ;;
   attrs <- __remove_keys e ["u"; "v"] ;;
   Ok (u, v, attrs))%res.

(** The body of the [try] block of [__getitem__]. *)
Definition read_lists (self : t) (roi : Roi)
    : M (list (Z * doc) * list (Z * Z * doc)) :=
  (__connect self ;;;
   nodes <-- __read_nodes self roi ;;
   node_list <-- lift (comprehension node_item nodes) ;;
   let node_ids := fst <$> node_list in
   edges <-- find (db_name self) "edges" [("u", [In_ node_ids])] ;;
   edge_list <-- lift (comprehension edge_item edges) ;;
   ret (node_list, edge_list))%M.

Definition __getitem__ (self : t) (roi : Roi) : M MongoDbSubRag.t :=
  if negb (dims roi =? 3)%nat then
    raise (AssertionError "Sorry, MongoDbRagProvider backend does only 3D")
  else
    (lists <-- try_finally (read_lists self roi) (__disconnect self) ;;
     let '(node_list, edge_list) := lists in
     graph <-- MongoDbSubRag.__init__ (db_name self) (host self) (mode self) ;;
     let g := add_nodes_from (MongoDbSubRag.graph graph) node_list in
     let g := add_edges_from g edge_list in
     ret {| MongoDbSubRag.graph := g;
            MongoDbSubRag.db_name := MongoDbSubRag.db_name graph;
            MongoDbSubRag.host := MongoDbSubRag.host graph;
            MongoDbSubRag.mode := MongoDbSubRag.mode graph |})%M.

End MongoDbRagProvider.

(** ** The schema of [__setup_db] *)

(** The three indexes of [__setup_db], the calls that create them, and the
    server once they exist in a database that did not exist before. *)
Definition position_index : IndexModel :=
  {| ix_name := "position";
     ix_keys := ["center_z"; "center_y"; "center_x"];
     ix_unique := false |}.

Definition id_index : IndexModel :=
  {| ix_name := "id"; ix_keys := ["id"]; ix_unique := true |}.

Definition incident_index : IndexModel :=
  {| ix_name := "incident"; ix_keys := ["u"; "v"]; ix_unique := true |}.

Definition schema_calls (db : string) : list event :=
  [ECreateIndex db "nodes" position_index;
   ECreateIndex db "nodes" id_index;
   ECreateIndex db "edges" incident_index].

Definition fresh_database : gmap string collection :=
  <["edges" := {| documents := []; indexes := [incident_index] |}]>
    (<["nodes" := {| documents := []; indexes := [position_index; id_index] |}]> ∅).

Definition with_schema (db : string) (s : server) : server :=
  <[db := fresh_database]> s.

(** A collection after the documents [ds] have been appended to it. *)
Definition extended (c : collection) (ds : list doc) : collection :=
  {| documents := documents c ++ ds; indexes := indexes c |}.

(** ** The ownership rule, as the specification words it *)

(** The position of a node that has one: the three center fields. *)
Definition position (d : doc) : option (Z * Z * Z) :=
  match d !! "center_z", d !! "center_y", d !! "center_x" with
  | Some (VInt z), Some (VInt y), Some (VInt x) => Some (z, y, x)
  | _, _, _ => None
  end.

(** Half-open containment of a position in a region, axis by axis. *)
Definition inside (roi : Roi) (p : Z * Z * Z) : bool :=
  match intervals roi, p with
  | [(bz, ez); (by_, ey); (bx, ex)], (z, y, x) =>
      (bz <=? z) && (z <? ez) && ((by_ <=? y) && (y <? ey))
      && ((bx <=? x) && (x <? ex))
  | _, _ => false
  end.

(** A region owns the edges whose endpoint [u] is a node with a position,
    and that position lies inside the region. *)
Definition owns (g : Graph) (roi : Roi) (u : Z) : bool :=
  match lookup_node u (node g) with
  | Some d =>
      match position d with
      | Some p => inside roi p
      | None => false
      end
  | None => false
  end.

(** The record of an edge under its canonical orientation. *)
Definition edge_record (e : Z * Z * doc) : doc :=
  let '(a, b, data) := e in
  data ∪ <["u" := VInt (Z.min a b)]> (<["v" := VInt (Z.max a b)]> ∅).

Definition canonical (e : Z * Z * doc) : Z * Z :=
  let '(a, b, _) := e in (Z.min a b, Z.max a b).

(** ** The selection that [sync_edges] makes *)




(** The first field among ['center_y'] and ['center_x'] that a node with a
    ['center_z'] lacks. *)
Definition missing_center (d : doc) : option string :=
  match d !! "center_z", d !! "center_y", d !! "center_x" with
  | Some _, None, _ => Some "center_y"
  | Some _, Some _, None => Some "center_x"
  | _, _, _ => None
  end.

(** ** Extraction, as the specification words it *)

(** A field holds a number of the half-open interval from [b] to [e]. *)
Definition within (b e : Z) (v : option value) : bool :=
  match v with
  | Some (VInt z) => (b <=? z) && (z <? e)
  | Some (VFloat n d) => (b * Z.pos d <=? n) && (n <? e * Z.pos d)
  | _ => false
  end.

(** The same as a proposition: the field holds an integer [z] with
    [b <= z < e], or a quotient [n / d] with [b <= n / d < e]. *)
Definition between (b e : Z) (v : option value) : Prop :=
  (exists z, v = Some (VInt z) /\ b <= z < e)
  \/ (exists n d, v = Some (VFloat n d) /\ b * Z.pos d <= n < e * Z.pos d).

(** A persisted node lies in a region when its three center fields hold
    numbers, each inside the region's interval on its axis. *)
Definition in_region (roi : Roi) (d : doc) : bool :=
  match intervals roi with
  | [(bz, ez); (by_, ey); (bx, ex)] =>
      within bz ez (d !! "center_z") && within by_ ey (d !! "center_y")
      && within bx ex (d !! "center_x")
  | _ => false
  end.

Definition int_field (d : doc) (k : string) : option Z :=
  match d !! k with
  | Some (VInt z) => Some z
  | _ => None
  end.

Definition id_of (n : doc) : Z := default 0 (int_field n "id").

(** The node and the edge that a document stands for. *)
Definition node_of (n : doc) : Z * doc := (id_of n, delete "id" n).

Definition edge_of (e : doc) : Z * Z * doc :=
  (default 0 (int_field e "u"), default 0 (int_field e "v"),
   delete "v" (delete "u" e)).

(** The persisted nodes of a region, and the persisted edges whose ['u'] is
    one of the given ids. *)
Definition nodes_in (s : server) (db : string) (roi : Roi) : list doc :=
  filter (fun d => in_region roi d = true) (documents (get_collection s db "nodes")).

(** The ['u'] of an edge document is one of the ids: a number equal to one
    of them, as the server compares. *)
Definition leaves_from (ids : list Z) (e : doc) : bool :=
  match e !! "u" with
  | Some (VInt u) => bool_decide (u ∈ ids)
  | Some (VFloat n d) => existsb (fun u => n =? u * Z.pos d) ids
  | _ => false
  end.

Definition edges_from (s : server) (db : string) (ids : list Z) : list doc :=
  filter (fun e => leaves_from ids e = true) (documents (get_collection s db "edges")).

Definition range_query (roi : Roi) : query :=
  match intervals roi with
  | [(bz, ez); (by_, ey); (bx, ex)] =>
      [("center_z", [Gte bz; Lt ez]);
       ("center_y", [Gte by_; Lt ey]);
       ("center_x", [Gte bx; Lt ex])]
  | _ => []
  end.

(** The graph that an extraction assembles, and the calls it makes. *)
Definition extracted (s : server) (db : string) (roi : Roi) : Graph :=
  let ns := nodes_in s db roi in
  add_edges_from
    (add_nodes_from empty_graph (node_of <$> ns))
    (edge_of <$> edges_from s db (id_of <$> ns)).

Definition extract_calls (self : MongoDbRagProvider.t) (s : server) (roi : Roi)
    : list event :=
  let db := MongoDbRagProvider.db_name self in
  [EConnect (MongoDbRagProvider.host self);
   EFind db "nodes" (range_query roi);
   EFind db "edges" [("u", [In_ (id_of <$> nodes_in s db roi)])];
   EClose;
   EConnect (MongoDbRagProvider.host self)].

(** A node of the dictionary that has a position; an edge between two ids,
    in either orientation; an id that some edge of a list ends in. *)
Definition full (n : Z) (l : list (Z * doc)) : Prop :=
  exists d, lookup_node n l = Some d /\ is_Some (d !! "center_z").

Definition has_edge (u v : Z) (l : list (Z * Z * doc)) : Prop :=
  exists a b d, (a, b, d) ∈ l /\ same_edge u v a b = true.

Definition endpoint (n : Z) (es : list (Z * Z * doc)) : bool :=
  existsb (fun '(u, v, _) => bool_decide (n = u) || bool_decide (n = v)) es.

(** ** The data model *)

(** The data model of a sub-graph: a node has its three center fields, all
    integers, or no ['center_z'] at all; the endpoints of an edge are nodes
    of the graph (networkx creates them with the edge). *)
Definition position_ok (d : doc) : bool :=
  match d !! "center_z" with
  | None => true
  | Some _ => bool_decide (is_Some (position d))
  end.

Definition nodes_ok (g : Graph) : bool :=
  forallb (fun '(_, d) => position_ok d) (node g).

Definition endpoints_ok (g : Graph) : bool :=
  forallb (fun '(u, v, _) =>
             bool_decide (is_Some (lookup_node u (node g)))
             && bool_decide (is_Some (lookup_node v (node g))))
    (edges g).

(** The record shapes of the store: a node document has an integer ['id'],
    an edge document has integer ['u'] and ['v']. *)
Definition node_doc_ok (n : doc) : bool :=
  bool_decide (is_Some (int_field n "id")).

Definition edge_doc_ok (e : doc) : bool :=
  bool_decide (is_Some (int_field e "u")) && bool_decide (is_Some (int_field e "v")).

Definition store_ok (s : server) (db : string) : bool :=
  forallb node_doc_ok (documents (get_collection s db "nodes"))
  && forallb edge_doc_ok (documents (get_collection s db "edges")).


(** Nodes whose center fields, where they have them, are numbers. *)
Definition number_or_absent (v : option value) : bool :=
  match v with
  | Some (VStr _) => false
  | _ => true
  end.

Definition centers_numeric (g : Graph) : bool :=
  forallb (fun '(_, d) =>
             number_or_absent (d !! "center_z")
             && number_or_absent (d !! "center_y")
             && number_or_absent (d !! "center_x"))
    (node g).

(** Documents whose id fields, where they have them, are integers. *)
Definition int_or_absent (v : option value) : bool :=
  match v with
  | None | Some (VInt _) => true
  | _ => false
  end.

Definition store_typed (s : server) (db : string) : bool :=
  forallb (fun n => int_or_absent (n !! "id"))
    (documents (get_collection s db "nodes"))
  && forallb (fun e => int_or_absent (e !! "u") && int_or_absent (e !! "v"))
       (documents (get_collection s db "edges")).


(** ** Concrete data used by the examples *)

Definition no_calls (s : server) : world := {| store := s; trace := [] |}.

Definition position_doc (z y x : Z) : doc :=
  <["center_z" := VInt z]> (<["center_y" := VInt y]> (<["center_x" := VInt x]> ∅)).

Definition cube (b e : Z) : Roi := {| intervals := [(b, e); (b, e); (b, e)] |}.

Definition sub_rag (g : Graph) (mode : string) : MongoDbSubRag.t :=
  {| MongoDbSubRag.graph := g;
     MongoDbSubRag.db_name := "rag";
     MongoDbSubRag.host := None;
     MongoDbSubRag.mode := mode |}.

Definition provider (db : string) (host : option string) (mode : string)
    : MongoDbRagProvider.t :=
  {| MongoDbRagProvider.db_name := db;
     MongoDbRagProvider.host := host;
     MongoDbRagProvider.mode := mode |}.

(** Node 1 at the origin and node 2 known by its id alone, joined by an
    edge: what an extraction leaves when node 2 lies outside the region. *)
Definition boundary_graph : Graph :=
  {| node := [(1, position_doc 0 0 0); (2, ∅)];
     edges := [(1, 2, ∅)] |}.

(** Nodes 1 and 2, both with a position, and a server that already holds
    the record of node 1 under the schema of [__setup_db]. *)
Definition two_nodes : Graph :=
  {| node := [(1, position_doc 0 0 0); (2, position_doc 5 5 5)];
     edges := [] |}.

Definition record_1 : doc := <["id" := VInt 1]> (position_doc 0 0 0).
Definition record_2 : doc := <["id" := VInt 2]> (position_doc 5 5 5).

Definition seeded : server :=
  <["rag" :=
      <["nodes" := {| documents := [record_1];
                      indexes := [position_index; id_index] |}]> fresh_database]> ∅.

(** Nodes 3 and 7 in opposite corners of the cube [0, 10), joined by an
    edge that the graph holds from 7 to 3. *)
Definition corner_graph : Graph :=
  {| node := [(3, position_doc 1 1 1); (7, position_doc 7 7 7)];
     edges := [(7, 3, ∅)] |}.

(** The edge between 1 and 2, held from 2 to 1, with an attribute that is
    itself named ['u']. *)
Definition override_graph : Graph :=
  {| node := [(1, position_doc 0 0 0); (2, ∅)];
     edges := [(2, 1, {["u" := VInt 9]})] |}.

(** A server with the schema, the records of nodes 1 and 2, and the edge
    between them. *)
Definition edge_1_2 : doc :=
  <["u" := VInt 1]> (<["v" := VInt 2]> (<["score" := VInt 9]> ∅)).

Definition populated : server :=
  <["rag" :=
      <["edges" := {| documents := [edge_1_2]; indexes := [incident_index] |}]>
        (<["nodes" := {| documents := [record_1; record_2];
                         indexes := [position_index; id_index] |}]> ∅)]> ∅.

(** A server whose only node document has a position but no ['id']. *)
Definition anonymous : server :=
  <["rag" := <["nodes" := {| documents := [position_doc 1 1 1];
                             indexes := [] |}]> ∅]> ∅.




Definition link_1_2 : doc := <["u" := VInt 1]> (<["v" := VInt 2]> ∅).

Definition linked : server :=
  <["rag" :=
      <["edges" := {| documents := [link_1_2]; indexes := [incident_index] |}]>
        fresh_database]> ∅.

(** Node 1 with a ['center_z'] and nothing else, joined to node 2. *)
Definition flat_graph : Graph :=
  {| node := [(1, {["center_z" := VInt 0]}); (2, ∅)];
     edges := [(1, 2, ∅)] |}.

(** A server whose edge between 1 and 2 has lost its ['v']. *)
Definition dangling : server :=
  <["rag" :=
      <["edges" := {| documents := [{["u" := VInt 1]}]; indexes := [] |}]>
        (<["nodes" := {| documents := [record_1; record_2];
                         indexes := [position_index; id_index] |}]> ∅)]> ∅.

(** The record that [sync_nodes] builds for a node. *)
Definition node_record (p : Z * doc) : doc :=
  snd p ∪ <["id" := VInt (fst p)]> ∅.

(** * Properties *)

(** ** Read-only bindings and malformed regions *)

Lemma sync_nodes_read_only (self : MongoDbSubRag.t) (w : world) :
  MongoDbSubRag.mode self = "r" ->
  MongoDbSubRag.sync_nodes self w
  = (Raise (RuntimeError "Trying to write to read-only DB"), w).
Proof.
  intros Hmode. unfold MongoDbSubRag.sync_nodes.
  destruct (decide (MongoDbSubRag.mode self = "r")) as [_ | Hne]; [| contradiction].
  reflexivity.
Qed.

Lemma sync_edges_read_only (self : MongoDbSubRag.t) (roi : Roi) (w : world) :
  MongoDbSubRag.mode self = "r" ->
  MongoDbSubRag.sync_edges self roi w
  = (Raise (RuntimeError "Trying to write to read-only DB"), w).
Proof.
  intros Hmode. unfold MongoDbSubRag.sync_edges.
  destruct (decide (MongoDbSubRag.mode self = "r")) as [_ | Hne]; [| contradiction].
  reflexivity.
Qed.

(** C8: on a sub-graph bound to read-only mode, [sync_nodes] and
    [sync_edges] both raise the read-only [RuntimeError], and the world is
    the one they started from: no call has reached the server and its
    content is unchanged, whatever the graph holds. *)
Theorem C8_read_only_sync_raises (self : MongoDbSubRag.t) (roi : Roi) (w : world) :
  MongoDbSubRag.mode self = "r" ->
  MongoDbSubRag.sync_nodes self w
    = (Raise (RuntimeError "Trying to write to read-only DB"), w)
  /\ MongoDbSubRag.sync_edges self roi w
    = (Raise (RuntimeError "Trying to write to read-only DB"), w).
Proof.
  intros Hmode. split; [apply sync_nodes_read_only | apply sync_edges_read_only];
    exact Hmode.
Qed.

Lemma C8_read_only_sync_raises_witness :
  MongoDbSubRag.sync_nodes (sub_rag boundary_graph "r") (no_calls ∅)
    = (Raise (RuntimeError "Trying to write to read-only DB"), no_calls ∅)
  /\ MongoDbSubRag.sync_edges (sub_rag boundary_graph "r") (cube 0 10) (no_calls ∅)
    = (Raise (RuntimeError "Trying to write to read-only DB"), no_calls ∅).
Proof.
  apply (C8_read_only_sync_raises (sub_rag boundary_graph "r") (cube 0 10) (no_calls ∅)).
  reflexivity.
Defined.

(** C9: [__getitem__] on a region whose dimensionality is not 3 raises the
    [AssertionError] of its first statement and leaves the world as it was:
    no connection is opened and no [find] is issued. *)
Theorem C9_extract_rejects_other_dims
    (self : MongoDbRagProvider.t) (roi : Roi) (w : world) :
  dims roi <> 3%nat ->
  MongoDbRagProvider.__getitem__ self roi w
    = (Raise (AssertionError "Sorry, MongoDbRagProvider backend does only 3D"), w).
Proof.
  intros Hdims. unfold MongoDbRagProvider.__getitem__.
  destruct (Nat.eqb_spec (dims roi) 3) as [Heq | _]; [contradiction |].
  reflexivity.
Qed.

Lemma C9_extract_rejects_other_dims_witness :
  MongoDbRagProvider.__getitem__
    {| MongoDbRagProvider.db_name := "rag"; MongoDbRagProvider.host := None;
       MongoDbRagProvider.mode := "r+" |}
    {| intervals := [(0, 10); (0, 10)] |} (no_calls ∅)
  = (Raise (AssertionError "Sorry, MongoDbRagProvider backend does only 3D"),
     no_calls ∅).
Proof.
  apply C9_extract_rejects_other_dims. intros H. discriminate H.
Defined.

(** ** Opening the provider *)

Lemma setup_db_fresh (self : MongoDbRagProvider.t) (w : world) :
  store w !! MongoDbRagProvider.db_name self = None ->
  MongoDbRagProvider.__setup_db self w
  = (Ok tt,
     {| store := with_schema (MongoDbRagProvider.db_name self) (store w);
        trace := trace w ++ schema_calls (MongoDbRagProvider.db_name self) |}).
Proof.
  intros Hnone. destruct w as [s tr]. simpl in *.
  unfold MongoDbRagProvider.__setup_db, bind, create_index. simpl.
  f_equal. f_equal.
  - unfold with_schema, fresh_database, set_collection, get_collection, add_index.
    rewrite Hnone. simpl.
    rewrite !lookup_insert_eq. simpl.
    rewrite lookup_insert_eq. simpl.
    rewrite !insert_insert_eq.
    rewrite lookup_insert_ne by done. rewrite lookup_empty. simpl.
    reflexivity.
  - rewrite <- !app_assoc. reflexivity.
Qed.

Lemma listed_iff_exists (s : server) (db : string) :
  bool_decide (db ∈ elements (dom s)) = bool_decide (is_Some (s !! db)).
Proof.
  apply bool_decide_ext. rewrite elem_of_elements. apply elem_of_dom.
Qed.

(** Any mode but ['w'], database present: nothing but the listing. *)
Lemma open_existing (db : string) (host : option string) (mode : string) (w : world) :
  mode <> "w" -> is_Some (store w !! db) ->
  MongoDbRagProvider.__init__ db host mode w
  = (Ok (provider db host mode),
     {| store := store w;
        trace := trace w ++ [EConnect host; EListDatabaseNames; EClose] |}).
Proof.
  intros Hmode Hsome. destruct w as [s tr]. simpl in *.
  unfold MongoDbRagProvider.__init__, bind, try_finally.
  unfold MongoDbRagProvider.__connect, MongoDbRagProvider.__disconnect.
  unfold MongoClient, close, list_database_names, log, ret. simpl.
  destruct (decide (mode = "w")) as [? | _]; [contradiction |]. simpl.
  rewrite listed_iff_exists, bool_decide_eq_true_2 by done. simpl.
  rewrite <- !app_assoc. reflexivity.
Qed.

(** Any mode but ['w'], database absent: the schema is set up. *)
Lemma open_absent (db : string) (host : option string) (mode : string) (w : world) :
  mode <> "w" -> store w !! db = None ->
  MongoDbRagProvider.__init__ db host mode w
  = (Ok (provider db host mode),
     {| store := with_schema db (store w);
        trace := trace w ++ [EConnect host; EListDatabaseNames]
                   ++ schema_calls db ++ [EClose] |}).
Proof.
  intros Hmode Hnone. destruct w as [s tr]. simpl in *.
  unfold MongoDbRagProvider.__init__, bind, try_finally.
  unfold MongoDbRagProvider.__connect, MongoDbRagProvider.__disconnect.
  unfold MongoClient, list_database_names, log, ret. simpl.
  destruct (decide (mode = "w")) as [? | _]; [contradiction |]. simpl.
  rewrite listed_iff_exists, bool_decide_eq_false_2
    by (rewrite Hnone; apply is_Some_None).
  rewrite setup_db_fresh by (simpl; done). simpl.
  unfold close, log. simpl. rewrite <- !app_assoc. reflexivity.
Qed.

(** Mode ['w']: the database is dropped, then the schema is set up. *)
Lemma open_reset (db : string) (host : option string) (w : world) :
  MongoDbRagProvider.__init__ db host "w" w
  = (Ok (provider db host "w"),
     {| store := with_schema db (delete db (store w));
        trace := trace w ++ [EConnect host; EDropDatabase db; EListDatabaseNames]
                   ++ schema_calls db ++ [EClose] |}).
Proof.
  destruct w as [s tr].
  unfold MongoDbRagProvider.__init__, bind, try_finally.
  unfold MongoDbRagProvider.__connect, MongoDbRagProvider.__disconnect.
  unfold MongoClient, drop_database, list_database_names, log, ret. simpl.
  rewrite listed_iff_exists, bool_decide_eq_false_2
    by (rewrite lookup_delete_eq; apply is_Some_None).
  rewrite setup_db_fresh by (simpl; apply lookup_delete_eq). simpl.
  unfold close, log. simpl. rewrite <- !app_assoc. reflexivity.
Qed.

(** C3 (as stated) fails: opened in read-only mode ['r'] on a server where
    the database does not exist, the provider issues the three
    [create_index] calls and leaves a server that has the database; opened
    in reset mode ['w'] it creates the schema as well, after the drop. *)
Lemma C3_read_only_open_creates_schema :
  MongoDbRagProvider.__init__ "rag" None "r" (no_calls ∅)
  = (Ok (provider "rag" None "r"),
     {| store := with_schema "rag" ∅;
        trace := [EConnect None; EListDatabaseNames]
                   ++ schema_calls "rag" ++ [EClose] |})
  /\ with_schema "rag" ∅ <> ∅
  /\ MongoDbRagProvider.__init__ "rag" None "w" (no_calls ∅)
  = (Ok (provider "rag" None "w"),
     {| store := with_schema "rag" ∅;
        trace := [EConnect None; EDropDatabase "rag"; EListDatabaseNames]
                   ++ schema_calls "rag" ++ [EClose] |}).
Proof.
  split; [| split].
  - rewrite open_absent by done. reflexivity.
  - intros H. apply (f_equal (fun s => s !! "rag")) in H.
    unfold with_schema in H. rewrite lookup_insert_eq, lookup_empty in H.
    discriminate H.
  - rewrite open_reset. simpl. rewrite delete_empty. reflexivity.
Qed.

(** C3 (amended): opening the provider on a server where the named database
    exists, in read-only mode or in any mode other than reset, issues no
    call but the listing of the databases and leaves the server's content
    unchanged; read-write mode ['r+'] creates the schema when the database
    does not exist; reset mode ['w'] drops the database and then creates
    the schema; and a [drop_database] call is issued in reset mode only. *)
Theorem C3_open_by_mode (db : string) (host : option string) (mode : string)
    (w : world) :
  (mode <> "w" -> is_Some (store w !! db) ->
   MongoDbRagProvider.__init__ db host mode w
   = (Ok (provider db host mode),
      {| store := store w;
         trace := trace w ++ [EConnect host; EListDatabaseNames; EClose] |}))
  /\ (mode = "r+" -> store w !! db = None ->
      MongoDbRagProvider.__init__ db host mode w
      = (Ok (provider db host mode),
         {| store := with_schema db (store w);
            trace := trace w ++ [EConnect host; EListDatabaseNames]
                       ++ schema_calls db ++ [EClose] |}))
  /\ (mode = "w" ->
      MongoDbRagProvider.__init__ db host mode w
      = (Ok (provider db host mode),
         {| store := with_schema db (delete db (store w));
            trace := trace w ++ [EConnect host; EDropDatabase db; EListDatabaseNames]
                       ++ schema_calls db ++ [EClose] |}))
  /\ (forall name,
        EDropDatabase name ∈ trace (snd (MongoDbRagProvider.__init__ db host mode w)) ->
        EDropDatabase name ∈ trace w \/ mode = "w").
Proof.
  repeat split.
  - apply open_existing.
  - intros -> Hnone. apply open_absent; done.
  - intros ->. apply open_reset.
  - intros name Hin. destruct (decide (mode = "w")) as [| Hmode]; [by right | left].
    destruct (store w !! db) as [d |] eqn:Hdb.
    + rewrite open_existing in Hin by (rewrite ?Hdb; done). simpl in Hin.
      apply elem_of_app in Hin as [Hin | Hin]; [done |].
      repeat (apply elem_of_cons in Hin as [Hin | Hin]; [discriminate Hin |]).
      by apply elem_of_nil in Hin.
    + rewrite open_absent in Hin by done. simpl in Hin.
      apply elem_of_app in Hin as [Hin | Hin]; [done |].
      repeat (apply elem_of_cons in Hin as [Hin | Hin]; [discriminate Hin |]).
      by apply elem_of_nil in Hin.
Qed.

Lemma C3_open_by_mode_witness :
  MongoDbRagProvider.__init__ "rag" None "r" (no_calls (with_schema "rag" ∅))
  = (Ok (provider "rag" None "r"),
     {| store := with_schema "rag" ∅;
        trace := [EConnect None; EListDatabaseNames; EClose] |})
  /\ MongoDbRagProvider.__init__ "rag" None "r+" (no_calls ∅)
  = (Ok (provider "rag" None "r+"),
     {| store := with_schema "rag" ∅;
        trace := [EConnect None; EListDatabaseNames]
                   ++ schema_calls "rag" ++ [EClose] |}).
Proof.
  split.
  - destruct (C3_open_by_mode "rag" None "r" (no_calls (with_schema "rag" ∅)))
      as (Hexists & _).
    apply Hexists; [intros H; discriminate H |].
    unfold with_schema. simpl. rewrite lookup_insert_eq. eexists; reflexivity.
  - destruct (C3_open_by_mode "rag" None "r+" (no_calls ∅)) as (_ & Hfresh & _).
    apply Hfresh; reflexivity.
Defined.

(** ** Writing nodes *)

Lemma sync_nodes_writable (self : MongoDbSubRag.t) (w : world) :
  MongoDbSubRag.mode self <> "r" ->
  MongoDbSubRag.sync_nodes self w
  = match (fun '(node_id, data) => data ∪ <["id" := VInt node_id]> (∅ : doc))
            <$> node (MongoDbSubRag.graph self) with
    | [] => (Ok tt, w)
    | d :: ds => insert_many (MongoDbSubRag.db_name self) "nodes" (d :: ds) true w
    end.
Proof.
  intros Hmode. unfold MongoDbSubRag.sync_nodes.
  destruct (decide (MongoDbSubRag.mode self = "r")) as [? | _]; [contradiction |].
  destruct (node (MongoDbSubRag.graph self)) as [| [n d] l]; reflexivity.
Qed.

Lemma insert_many_trace (db coll : string) (docs : list doc) (o : bool) (w : world) :
  docs <> [] ->
  trace (snd (insert_many db coll docs o w)) = trace w ++ [EInsertMany db coll docs o].
Proof.
  intros Hne. unfold insert_many. destruct docs as [| d ds]; [done |].
  destruct (insert_batch o 0 (d :: ds) _) as [c errs].
  destruct errs; reflexivity.
Qed.

(** C4 (as stated) fails: on a graph with node 1 at the origin and node 2
    without any attribute, [sync_nodes] builds a record for node 2 as well
    and the batch it inserts holds both. *)
Lemma C4_stub_node_is_written :
  lookup_node 2 (node boundary_graph) = Some ∅
  /\ MongoDbSubRag.sync_nodes (sub_rag boundary_graph "r+") (no_calls ∅)
     = (Ok tt,
        {| store := <["rag" := <["nodes" :=
                       {| documents := [record_1; {["id" := VInt 2]}];
                          indexes := [] |}]> ∅]> ∅;
           trace := [EInsertMany "rag" "nodes"
                       [record_1; {["id" := VInt 2]}] true] |}).
Proof.
  split; vm_compute; reflexivity.
Qed.

(** C4 (amended): on a sub-graph that is not bound to read-only mode,
    [sync_nodes] builds exactly one record per node of the graph, whether
    the node has position attributes or none, in the order of the nodes.
    The record has every attribute of the node, and the node's id under
    ['id'] unless the attributes have an ['id'] entry of their own; for a
    node without attributes it is the id alone.  A graph without nodes
    makes no call; otherwise the records go to the server in one
    [insert_many] on the nodes collection. *)
Theorem C4_sync_nodes_every_node (self : MongoDbSubRag.t) (w : world) :
  MongoDbSubRag.mode self <> "r" ->
  exists batch : list doc,
    length batch = length (node (MongoDbSubRag.graph self))
    /\ (forall (i : nat) n d,
          node (MongoDbSubRag.graph self) !! i = Some (n, d) ->
          exists rec : doc,
            batch !! i = Some rec
            /\ (forall k, k <> "id" -> rec !! k = d !! k)
            /\ rec !! "id" = Some (default (VInt n) (d !! "id"))
            /\ (d = ∅ -> rec = {["id" := VInt n]}))
    /\ (batch = [] -> MongoDbSubRag.sync_nodes self w = (Ok tt, w))
    /\ (batch <> [] ->
        MongoDbSubRag.sync_nodes self w
          = insert_many (MongoDbSubRag.db_name self) "nodes" batch true w
        /\ trace (snd (MongoDbSubRag.sync_nodes self w))
          = trace w ++ [EInsertMany (MongoDbSubRag.db_name self) "nodes" batch true]).
Proof.
  intros Hmode. rewrite sync_nodes_writable by done.
  set (f := fun '(node_id, data) => data ∪ <["id" := VInt node_id]> (∅ : doc)).
  exists (f <$> node (MongoDbSubRag.graph self)).
  split; [apply length_fmap |]. split; [| split].
  - intros i n d Hi. exists (f (n, d)). split.
    { rewrite list_lookup_fmap, Hi. reflexivity. }
    simpl. split; [| split].
    + intros k Hk. rewrite lookup_union, lookup_insert_ne, lookup_empty by done.
      destruct (d !! k); reflexivity.
    + rewrite lookup_union, lookup_insert_eq. destruct (d !! "id"); reflexivity.
    + intros ->. rewrite (left_id_L ∅ (∪)). reflexivity.
  - intros ->. reflexivity.
  - intros Hne. destruct (f <$> node (MongoDbSubRag.graph self)) as [| r rs] eqn:E;
      [done |].
    split; [reflexivity |]. apply insert_many_trace. done.
Qed.

Lemma C4_sync_nodes_every_node_witness :
  exists batch : list doc,
    length batch = 2%nat
    /\ batch !! 1%nat = Some ({["id" := VInt 2]} : doc)
    /\ trace (snd (MongoDbSubRag.sync_nodes (sub_rag boundary_graph "r+") (no_calls ∅)))
       = [EInsertMany "rag" "nodes" batch true].
Proof.
  destruct (C4_sync_nodes_every_node (sub_rag boundary_graph "r+") (no_calls ∅))
    as (batch & Hlen & Hrec & _ & Hcall).
  { intros H; discriminate H. }
  exists batch. split; [exact Hlen |].
  destruct (Hrec 1%nat 2 ∅ eq_refl) as (rec & Hrec1 & _ & _ & Hstub).
  rewrite (Hstub eq_refl) in Hrec1. split; [exact Hrec1 |].
  destruct batch as [| r rs]; [discriminate Hlen |].
  destruct Hcall as [_ Htrace]; [intros H; discriminate H |].
  exact Htrace.
Defined.

(** ** Batches and conflicts *)

(** An ordered batch inserts a prefix of its documents: all of them, or the
    ones before the first document that a unique index rejects. *)
Lemma insert_batch_ordered (ds : list doc) : forall (i : nat) (c c' : collection) errs,
  insert_batch true i ds c = (c', errs) ->
  exists k : nat,
    c' = extended c (take k ds)
    /\ (forall (j : nat) d, (j < k)%nat -> ds !! j = Some d ->
          conflicts (extended c (take j ds)) d = false)
    /\ ((k = length ds /\ errs = [])
        \/ (exists d, ds !! k = Some d
              /\ conflicts (extended c (take k ds)) d = true
              /\ errs = [WriteError (i + k) d])).
Proof.
  assert (Hext0 : forall c, extended c [] = c).
  { intros [docs ixs]. unfold extended. simpl. by rewrite app_nil_r. }
  assert (Hext1 : forall c d l, extended (push d c) l = extended c (d :: l)).
  { intros [docs ixs] d l. unfold extended, push. simpl. by rewrite <- app_assoc. }
  induction ds as [| d ds IH]; intros i c c' errs Hrun; simpl in Hrun.
  - inversion Hrun; subst. exists 0%nat. rewrite Hext0.
    split; [done |]. split; [intros; lia | left; done].
  - destruct (conflicts c d) eqn:Hc.
    + inversion Hrun; subst. exists 0%nat. simpl. rewrite Hext0.
      split; [done |]. split; [intros; lia |].
      right. exists d. rewrite Nat.add_0_r. done.
    + apply IH in Hrun as (k & Hc' & Hbefore & Hend).
      exists (S k). simpl. rewrite <- Hext1. split; [done |]. split.
      * intros [| j] d' Hj Hd'; simpl in *.
        { inversion Hd'; subst. by rewrite Hext0. }
        rewrite <- Hext1. apply Hbefore; [lia | done].
      * destruct Hend as [[-> ->] | (d' & Hd' & Hconf & ->)]; [left; done |].
        right. exists d'. rewrite Nat.add_succ_r. done.
Qed.

(** C5 (as stated) fails: the server holds the record of node 1; the batch
    of [sync_nodes] is the records of nodes 1 and 2, sent with
    [ordered = true].  The record of node 2 conflicts with nothing, yet the
    server is left as it was: the conflict on node 1 ended the batch.  An
    unordered batch would have inserted it. *)
Lemma C5_conflict_ends_the_batch :
  MongoDbSubRag.sync_nodes (sub_rag two_nodes "r+") (no_calls seeded)
  = (Raise (BulkWriteError [WriteError 0 record_1]),
     {| store := seeded;
        trace := [EInsertMany "rag" "nodes" [record_1; record_2] true] |})
  /\ conflicts (get_collection seeded "rag" "nodes") record_2 = false
  /\ documents (get_collection seeded "rag" "nodes") = [record_1]
  /\ documents
       (fst (insert_batch false 0 [record_1; record_2]
               (get_collection seeded "rag" "nodes")))
     = [record_1; record_2].
Proof.
  repeat split; vm_compute; reflexivity.
Qed.

Lemma insert_many_ordered (db coll : string) (docs : list doc) (w w' : world)
    (r : result unit) :
  docs <> [] ->
  insert_many db coll docs true w = (r, w') ->
  exists k : nat,
    trace w' = trace w ++ [EInsertMany db coll docs true]
    /\ store w' = set_collection (store w) db coll
                    (extended (get_collection (store w) db coll) (take k docs))
    /\ (forall (j : nat) d, (j < k)%nat -> docs !! j = Some d ->
          conflicts (extended (get_collection (store w) db coll) (take j docs)) d = false)
    /\ ((k = length docs /\ r = Ok tt)
        \/ (exists d, docs !! k = Some d
              /\ conflicts (extended (get_collection (store w) db coll) (take k docs)) d = true
              /\ r = Raise (BulkWriteError [WriteError k d]))).
Proof.
  intros Hne Hrun. unfold insert_many in Hrun.
  destruct docs as [| d0 ds]; [done |].
  destruct (insert_batch true 0 (d0 :: ds) (get_collection (store w) db coll))
    as [c errs] eqn:Hbatch.
  apply insert_batch_ordered in Hbatch as (k & -> & Hbefore & Hend).
  exists k.
  destruct Hend as [[-> ->] | (d & Hd & Hconf & ->)].
  - inversion Hrun; subst; simpl. repeat split; try done. left; done.
  - inversion Hrun; subst; simpl. repeat split; try done. right. exists d. done.
Qed.

Lemma sync_edges_writable (self : MongoDbSubRag.t) (roi : Roi) (w : world) :
  MongoDbSubRag.mode self <> "r" ->
  MongoDbSubRag.sync_edges self roi w
  = match MongoDbSubRag.sync_edges_loop self roi
            (edges (MongoDbSubRag.graph self)) [] with
    | Raise e => (Raise e, w)
    | Ok [] => (Ok tt, w)
    | Ok (d :: ds) =>
        insert_many (MongoDbSubRag.db_name self) "edges" (d :: ds) true w
    end.
Proof.
  intros Hmode. unfold MongoDbSubRag.sync_edges.
  destruct (decide (MongoDbSubRag.mode self = "r")) as [? | _]; [contradiction |].
  unfold bind, lift.
  destruct (MongoDbSubRag.sync_edges_loop self roi _ []) as [[| d ds] | e];
    reflexivity.
Qed.

(** C5 (amended): a call of [sync_nodes] or [sync_edges] either leaves the
    world as it found it, or issues exactly one [insert_many], on the
    sub-graph's database, with [ordered = true].  The server then holds the
    first [k] documents of the batch in addition to what it held: either
    [k] is the whole batch and the call returns, or document [k] is the
    first one that a unique index rejects, neither it nor any document
    after it is inserted, and the call raises [BulkWriteError] naming that
    document. *)
Theorem C5_sync_batches_are_ordered (self : MongoDbSubRag.t) (roi : Roi)
    (w w' : world) (r : result unit) :
  MongoDbSubRag.sync_nodes self w = (r, w')
  \/ MongoDbSubRag.sync_edges self roi w = (r, w') ->
  w' = w
  \/ exists (coll : string) (docs : list doc) (k : nat),
       let db := MongoDbSubRag.db_name self in
       let c := get_collection (store w) db coll in
       trace w' = trace w ++ [EInsertMany db coll docs true]
       /\ store w' = set_collection (store w) db coll (extended c (take k docs))
       /\ (forall (j : nat) d, (j < k)%nat -> docs !! j = Some d ->
             conflicts (extended c (take j docs)) d = false)
       /\ ((k = length docs /\ r = Ok tt)
           \/ (exists d, docs !! k = Some d
                 /\ conflicts (extended c (take k docs)) d = true
                 /\ r = Raise (BulkWriteError [WriteError k d]))).
Proof.
  destruct (decide (MongoDbSubRag.mode self = "r")) as [Hr | Hrw].
  { intros Hrun. left.
    pose proof (sync_nodes_read_only self w Hr) as Hn.
    pose proof (sync_edges_read_only self roi w Hr) as He.
    destruct Hrun as [Hrun | Hrun]; congruence. }
  intros [Hrun | Hrun].
  - rewrite sync_nodes_writable in Hrun by done.
    destruct (_ <$> node (MongoDbSubRag.graph self)) as [| d ds].
    + left. congruence.
    + right. exists "nodes", (d :: ds).
      apply insert_many_ordered in Hrun as (k & Hk); [| done]. by exists k.
  - rewrite sync_edges_writable in Hrun by done.
    destruct (MongoDbSubRag.sync_edges_loop self roi _ []) as [[| d ds] | e].
    + left. congruence.
    + right. exists "edges", (d :: ds).
      apply insert_many_ordered in Hrun as (k & Hk); [| done]. by exists k.
    + left. congruence.
Qed.

Lemma C5_sync_batches_are_ordered_witness :
  exists (coll : string) (docs : list doc),
    [EInsertMany "rag" "nodes" [record_1; record_2] true]
    = [] ++ [EInsertMany "rag" coll docs true].
Proof.
  destruct (C5_sync_batches_are_ordered (sub_rag two_nodes "r+") (cube 0 10)
              (no_calls seeded)
              {| store := seeded;
                 trace := [EInsertMany "rag" "nodes" [record_1; record_2] true] |}
              (Raise (BulkWriteError [WriteError 0 record_1])))
    as [Hsame | (coll & docs & k & Htrace & _)].
  - left. vm_compute. reflexivity.
  - apply (f_equal trace) in Hsame. discriminate Hsame.
  - exists coll, docs. exact Htrace.
Defined.

(** ** Ownership of edges *)

Lemma contains_inside (roi : Roi) (z y x : Z) :
  dims roi = 3%nat -> contains roi [z; y; x] = inside roi (z, y, x).
Proof.
  unfold dims, contains, inside. intros Hdims.
  destruct (intervals roi) as [| [bz ez] [| [by_ ey] [| [bx ex] [| ? ?]]]];
    try discriminate Hdims.
  simpl. rewrite andb_true_r. rewrite !andb_assoc. reflexivity.
Qed.

Lemma lookup_node_elem (n : Z) (l : list (Z * doc)) (d : doc) :
  lookup_node n l = Some d -> (n, d) ∈ l.
Proof.
  induction l as [| [m d'] l IH]; simpl; [discriminate |].
  destruct (decide (m = n)) as [-> | _].
  - intros [= ->]. apply list_elem_of_here.
  - intros H. apply list_elem_of_further, IH, H.
Qed.

Lemma nodes_ok_lookup (g : Graph) (n : Z) (d : doc) :
  nodes_ok g = true -> lookup_node n (node g) = Some d -> position_ok d = true.
Proof.
  unfold nodes_ok. rewrite forallb_forall. intros Hall Hd.
  apply lookup_node_elem, list_elem_of_In, Hall in Hd. exact Hd.
Qed.

(** On a node that fits the data model, the test of [_contains] is the
    ownership rule. *)
Lemma contains_owns (self : MongoDbSubRag.t) (roi : Roi) (u v : Z) :
  dims roi = 3%nat ->
  nodes_ok (MongoDbSubRag.graph self) = true ->
  is_Some (lookup_node u (node (MongoDbSubRag.graph self))) ->
  MongoDbSubRag._contains self roi (u, v)
  = Ok (owns (MongoDbSubRag.graph self) roi u).
Proof.
  intros Hdims Hok [d Hd]. unfold MongoDbSubRag._contains, owns. rewrite Hd.
  pose proof (nodes_ok_lookup _ _ _ Hok Hd) as Hpos.
  unfold position_ok in Hpos. unfold position in *.
  destruct (d !! "center_z") as [cz |] eqn:Hz; [| reflexivity].
  apply bool_decide_eq_true_1 in Hpos. destruct Hpos as [p Hp].
  unfold getitem.
  destruct cz as [z | ? ? | ?]; try discriminate Hp.
  destruct (d !! "center_y") as [[y | ? ? | ?] |]; try discriminate Hp.
  destruct (d !! "center_x") as [[x | ? ? | ?] |]; try discriminate Hp.
  simpl. rewrite contains_inside by done. reflexivity.
Qed.

Lemma sync_edges_body_owns (self : MongoDbSubRag.t) (roi : Roi) (a b : Z) (data : doc) :
  dims roi = 3%nat ->
  nodes_ok (MongoDbSubRag.graph self) = true ->
  is_Some (lookup_node (Z.min a b) (node (MongoDbSubRag.graph self))) ->
  MongoDbSubRag.sync_edges_body self roi (a, b, data)
  = Ok (if owns (MongoDbSubRag.graph self) roi (Z.min a b)
        then Some (edge_record (a, b, data)) else None).
Proof.
  intros Hdims Hok Hnode. unfold MongoDbSubRag.sync_edges_body.
  rewrite contains_owns by done. simpl.
  destruct (owns _ roi (Z.min a b)); reflexivity.
Qed.

Lemma endpoints_ok_min (g : Graph) (a b : Z) (data : doc) :
  endpoints_ok g = true -> (a, b, data) ∈ edges g ->
  is_Some (lookup_node (Z.min a b) (node g)).
Proof.
  unfold endpoints_ok. rewrite forallb_forall. intros Hall Hin.
  apply list_elem_of_In, Hall in Hin. simpl in Hin.
  apply andb_true_iff in Hin as [Ha Hb].
  apply bool_decide_eq_true_1 in Ha, Hb.
  destruct (Z.min_spec a b) as [[_ ->] | [_ ->]]; assumption.
Qed.

(** The loop appends, in order, the records of the turns that did not skip. *)
Lemma sync_edges_loop_spec (self : MongoDbSubRag.t) (roi : Roi)
    (f : Z * Z * doc -> option doc) (es : list (Z * Z * doc)) :
  (forall e, e ∈ es -> MongoDbSubRag.sync_edges_body self roi e = Ok (f e)) ->
  forall acc, MongoDbSubRag.sync_edges_loop self roi es acc = Ok (acc ++ omap f es).
Proof.
  induction es as [| e es IH]; intros Hbody acc; simpl.
  - by rewrite app_nil_r.
  - rewrite Hbody by apply list_elem_of_here. simpl.
    rewrite IH by (intros e' He'; apply Hbody, list_elem_of_further, He').
    destruct (f e) as [rec |]; [| reflexivity].
    by rewrite <- app_assoc.
Qed.

Lemma omap_owned {A B} (p : A -> bool) (f : A -> B) (l : list A) :
  omap (fun x => if p x then Some (f x) else None) l
  = f <$> filter (fun x => p x = true) l.
Proof.
  induction l as [| x l IH]; [reflexivity |].
  rewrite filter_cons. destruct (decide (p x = true)) as [Hp | Hp].
  - rewrite fmap_cons, <- IH. simpl. rewrite Hp. reflexivity.
  - rewrite <- IH. apply not_true_is_false in Hp. simpl. rewrite Hp. reflexivity.
Qed.

Lemma owns_iff (g : Graph) (roi : Roi) (u : Z) :
  owns g roi u = true <->
  exists d z y x bz ez by_ ey bx ex,
    lookup_node u (node g) = Some d
    /\ d !! "center_z" = Some (VInt z)
    /\ d !! "center_y" = Some (VInt y)
    /\ d !! "center_x" = Some (VInt x)
    /\ intervals roi = [(bz, ez); (by_, ey); (bx, ex)]
    /\ (bz <= z < ez) /\ (by_ <= y < ey) /\ (bx <= x < ex).
Proof.
  unfold owns, position, inside. split.
  - destruct (lookup_node u (node g)) as [d |]; [| discriminate].
    destruct (d !! "center_z") as [[z | ? ? | ?] |] eqn:Hz; try discriminate.
    destruct (d !! "center_y") as [[y | ? ? | ?] |] eqn:Hy; try discriminate.
    destruct (d !! "center_x") as [[x | ? ? | ?] |] eqn:Hx; try discriminate.
    destruct (intervals roi) as [| [bz ez] [| [by_ ey] [| [bx ex] [| ? ?]]]];
      try discriminate.
    intros H. exists d, z, y, x, bz, ez, by_, ey, bx, ex.
    rewrite !andb_true_iff, !Z.leb_le, !Z.ltb_lt in H.
    repeat split; try done; lia.
  - intros (d & z & y & x & bz & ez & by_ & ey & bx & ex
            & -> & -> & -> & -> & -> & Hz & Hy & Hx).
    rewrite !andb_true_iff, !Z.leb_le, !Z.ltb_lt. lia.
Qed.

(** *** The test of [_contains] on centers that are numbers *)












Lemma sync_edges_body_some (self : MongoDbSubRag.t) (roi : Roi) (e : Z * Z * doc)
    (rec : doc) :
  MongoDbSubRag.sync_edges_body self roi e = Ok (Some rec) ->
  MongoDbSubRag._contains self roi (canonical e) = Ok true
  /\ rec = edge_record e.
Proof.
  destruct e as [[a b] data].
  unfold MongoDbSubRag.sync_edges_body, rbind, canonical, edge_record. cbv zeta.
  destruct (MongoDbSubRag._contains self roi (Z.min a b, Z.max a b)) as [[|] | ?];
    cbn [negb]; try discriminate.
  intros H. inversion H; subst. done.
Qed.

Lemma sync_edges_body_none (self : MongoDbSubRag.t) (roi : Roi) (e : Z * Z * doc) :
  MongoDbSubRag.sync_edges_body self roi e = Ok None ->
  MongoDbSubRag._contains self roi (canonical e) = Ok false.
Proof.
  destruct e as [[a b] data].
  unfold MongoDbSubRag.sync_edges_body, rbind, canonical. cbv zeta.
  destruct (MongoDbSubRag._contains self roi (Z.min a b, Z.max a b)) as [[|] | ?];
    cbn [negb]; try discriminate.
  done.
Qed.

(** Every record of the batch was appended by the turn of some edge. *)
Lemma sync_edges_loop_origin (self : MongoDbSubRag.t) (roi : Roi)
    (es : list (Z * Z * doc)) :
  forall acc batch,
    MongoDbSubRag.sync_edges_loop self roi es acc = Ok batch ->
    forall rec, rec ∈ batch ->
      rec ∈ acc
      \/ exists e, e ∈ es /\ MongoDbSubRag.sync_edges_body self roi e = Ok (Some rec).
Proof.
  induction es as [| e es IH]; intros acc batch Hrun rec Hrec; simpl in Hrun.
  - inversion Hrun; subst. by left.
  - destruct (MongoDbSubRag.sync_edges_body self roi e) as [r | ?] eqn:He;
      [| discriminate]. simpl in Hrun.
    destruct (IH _ _ Hrun rec Hrec) as [Hacc | (e' & He' & Hbody)].
    + destruct r as [edge |]; [| by left].
      apply elem_of_app in Hacc as [Hacc | Hnew]; [by left |].
      apply list_elem_of_singleton in Hnew as ->.
      right. exists e. split; [apply list_elem_of_here | done].
    + right. exists e'. split; [by apply list_elem_of_further | done].
Qed.

Lemma separated_exclusive (r1 r2 : Roi) (p : Z * Z * Z) :
  separated r1 r2 = true -> inside r1 p = true -> inside r2 p = true -> False.
Proof.
  unfold separated, inside. destruct p as [[z y] x].
  destruct (intervals r1) as [| [bz ez] [| [by_ ey] [| [bx ex] [| ? ?]]]];
    try discriminate.
  destruct (intervals r2) as [| [bz' ez'] [| [by' ey'] [| [bx' ex'] [| ? ?]]]];
    try discriminate.
  simpl. rewrite !orb_true_iff, !andb_true_iff, !Z.leb_le, !Z.ltb_lt.
  intros. lia.
Qed.

Lemma owns_exclusive (g : Graph) (r1 r2 : Roi) (u : Z) :
  (forall p, inside r1 p = true -> inside r2 p = true -> False) ->
  owns g r1 u = true -> owns g r2 u = true -> False.
Proof.
  unfold owns. intros Hsep.
  destruct (lookup_node u (node g)) as [d |]; [| discriminate].
  destruct (position d) as [p |]; [| discriminate].
  apply Hsep.
Qed.

Lemma key_of_edge_record (a b : Z) (data : doc) :
  data !! "u" = None -> data !! "v" = None ->
  key_of ["u"; "v"] (edge_record (a, b, data))
  = [Some (VInt (Z.min a b)); Some (VInt (Z.max a b))].
Proof.
  intros Hu Hv. unfold key_of, edge_record. simpl.
  rewrite !lookup_union, Hu, Hv.
  rewrite lookup_insert_eq, lookup_insert_ne, lookup_insert_eq by done.
  reflexivity.
Qed.



(** ** Canonical orientation *)

Lemma contains_first_endpoint (self : MongoDbSubRag.t) (roi : Roi) (u v v' : Z) :
  MongoDbSubRag._contains self roi (u, v) = MongoDbSubRag._contains self roi (u, v').
Proof. reflexivity. Qed.

Lemma contains_true_full (self : MongoDbSubRag.t) (roi : Roi) (u v : Z) :
  MongoDbSubRag._contains self roi (u, v) = Ok true ->
  exists d, lookup_node u (node (MongoDbSubRag.graph self)) = Some d
            /\ is_Some (d !! "center_z").
Proof.
  unfold MongoDbSubRag._contains.
  destruct (lookup_node u _) as [d |]; [| discriminate].
  destruct (d !! "center_z") as [cz |] eqn:Hz; [| discriminate].
  intros _. exists d. rewrite Hz. eauto.
Qed.

(** C10 (as stated) fails: the edge between 1 and 2 carries an attribute
    named ['u'] with value 9.  [sync_edges] computes [(1, 2)] and tests node
    1, which the region owns, but [edge.update(data)] then replaces the
    computed ['u']: the record that is inserted has [u = 9] and [v = 2]. *)
Lemma C10_attribute_replaces_endpoint :
  MongoDbSubRag.sync_edges (sub_rag override_graph "r+") (cube 0 10) (no_calls ∅)
  = (Ok tt,
     {| store := <["rag" := <["edges" :=
                    {| documents := [<["u" := VInt 9]> (<["v" := VInt 2]> ∅)];
                       indexes := [] |}]> ∅]> ∅;
        trace := [EInsertMany "rag" "edges"
                    [<["u" := VInt 9]> (<["v" := VInt 2]> ∅)] true] |})
  /\ ~ (9 <= 2).
Proof.
  split; [vm_compute; reflexivity | lia].
Qed.

(** C10 (amended): [sync_edges] orders the endpoints of every edge itself.
    The turn of the loop is the same for the edge held as [(a, b)] and held
    as [(b, a)]; the ownership test is made on [(min a b, max a b)] and
    reads the node [min a b] only; a record that is appended is the edge's
    attributes laid over [{u: min a b, v: max a b}], so that it has
    [u = min a b <= v = max a b] whenever the attributes have no entry
    named ['u'] or ['v']; and every record of the batch was appended by the
    turn of an edge of the graph. *)
Theorem C10_sync_edges_canonical (self : MongoDbSubRag.t) (roi : Roi) :
  let g := MongoDbSubRag.graph self in
  (forall a b data,
     MongoDbSubRag.sync_edges_body self roi (a, b, data)
     = MongoDbSubRag.sync_edges_body self roi (b, a, data))
  /\ (forall a b data rec,
        MongoDbSubRag.sync_edges_body self roi (a, b, data) = Ok (Some rec) ->
        MongoDbSubRag._contains self roi (Z.min a b, Z.max a b) = Ok true
        /\ (exists d, lookup_node (Z.min a b) (node g) = Some d
                      /\ is_Some (d !! "center_z"))
        /\ rec = data ∪ <["u" := VInt (Z.min a b)]> (<["v" := VInt (Z.max a b)]> ∅)
        /\ (data !! "u" = None -> data !! "v" = None ->
            rec !! "u" = Some (VInt (Z.min a b))
            /\ rec !! "v" = Some (VInt (Z.max a b))
            /\ Z.min a b <= Z.max a b))
  /\ (forall a b data,
        MongoDbSubRag.sync_edges_body self roi (a, b, data) = Ok None ->
        MongoDbSubRag._contains self roi (Z.min a b, Z.max a b) = Ok false)
  /\ (forall u v v',
        MongoDbSubRag._contains self roi (u, v)
        = MongoDbSubRag._contains self roi (u, v'))
  /\ (forall batch rec,
        MongoDbSubRag.sync_edges_loop self roi (edges g) [] = Ok batch ->
        rec ∈ batch ->
        exists a b data,
          (a, b, data) ∈ edges g
          /\ MongoDbSubRag.sync_edges_body self roi (a, b, data) = Ok (Some rec)).
Proof.
  intros g. repeat apply conj.
  - intros a b data. unfold MongoDbSubRag.sync_edges_body.
    rewrite (Z.min_comm b a), (Z.max_comm b a). reflexivity.
  - intros a b data rec Hbody.
    apply sync_edges_body_some in Hbody as [Htest ->]. unfold canonical in Htest.
    split; [exact Htest |].
    split; [exact (contains_true_full self roi _ _ Htest) |].
    split; [reflexivity |].
    intros Hu Hv. unfold edge_record. rewrite !lookup_union, Hu, Hv.
    rewrite lookup_insert_eq, lookup_insert_ne, lookup_insert_eq by done.
    repeat split. lia.
  - intros a b data Hbody. apply sync_edges_body_none in Hbody. exact Hbody.
  - intros u v v'. apply contains_first_endpoint.
  - intros batch rec Hrun Hrec.
    destruct (sync_edges_loop_origin self roi _ _ _ Hrun rec Hrec)
      as [Hnil | ([[a b] data] & He & Hbody)].
    + by apply elem_of_nil in Hnil.
    + exists a, b, data. done.
Qed.

Lemma C10_sync_edges_canonical_witness :
  edge_record (7, 3, ∅) !! "u" = Some (VInt 3)
  /\ edge_record (7, 3, ∅) !! "v" = Some (VInt 7)
  /\ 3 <= 7.
Proof.
  destruct (C10_sync_edges_canonical (sub_rag corner_graph "r+") (cube 0 5))
    as (_ & Hrec & _).
  destruct (Hrec 7 3 ∅ (edge_record (7, 3, ∅))) as (_ & _ & _ & Hle).
  { reflexivity. }
  exact (Hle eq_refl eq_refl).
Defined.

(** ** Extraction *)

Lemma matches_range (roi : Roi) (d : doc) :
  dims roi = 3%nat -> matches (range_query roi) d = in_region roi d.
Proof.
  unfold dims, range_query, in_region, within. intros Hdims.
  destruct (intervals roi) as [| [bz ez] [| [by_ ey] [| [bx ex] [| ? ?]]]];
    try discriminate Hdims.
  unfold matches. simpl.
  destruct (d !! "center_z") as [[z | ? ? | ?] |],
           (d !! "center_y") as [[y | ? ? | ?] |],
           (d !! "center_x") as [[x | ? ? | ?] |]; simpl;
    rewrite ?andb_true_r, ?andb_false_r, ?andb_assoc; reflexivity.
Qed.

Lemma matches_in (ids : list Z) (e : doc) :
  matches [("u", [In_ ids])] e = leaves_from ids e.
Proof.
  unfold matches, leaves_from. simpl.
  destruct (e !! "u") as [[u | ? ? | ?] |]; simpl; rewrite ?andb_true_r; reflexivity.
Qed.

Lemma comprehension_total {A B} (f : A -> result B) (g : A -> B) (xs : list A) :
  (forall x, x ∈ xs -> f x = Ok (g x)) ->
  MongoDbRagProvider.comprehension f xs = Ok (g <$> xs).
Proof.
  induction xs as [| x xs IH]; intros Hf; [reflexivity |]. simpl.
  rewrite Hf by apply list_elem_of_here. simpl.
  rewrite IH by (intros y Hy; apply Hf, list_elem_of_further, Hy).
  reflexivity.
Qed.

Lemma node_item_ok (n : doc) :
  node_doc_ok n = true -> MongoDbRagProvider.node_item n = Ok (node_of n).
Proof.
  unfold node_doc_ok, MongoDbRagProvider.node_item, node_of, id_of, int_field, getitem.
  intros H. apply bool_decide_eq_true_1 in H as [i Hi].
  destruct (n !! "id") as [[z | ? ? | ?] |] eqn:Hid; try discriminate Hi.
  simpl. rewrite Hid. reflexivity.
Qed.

Lemma edge_item_ok (e : doc) :
  edge_doc_ok e = true -> MongoDbRagProvider.edge_item e = Ok (edge_of e).
Proof.
  unfold edge_doc_ok, MongoDbRagProvider.edge_item, edge_of, int_field, getitem.
  intros H. apply andb_true_iff in H as [Hu Hv].
  apply bool_decide_eq_true_1 in Hu as [u Hu], Hv as [v Hv].
  destruct (e !! "u") as [[zu | ? ? | ?] |] eqn:Eu; try discriminate Hu.
  destruct (e !! "v") as [[zv | ? ? | ?] |] eqn:Ev; try discriminate Hv.
  simpl. rewrite Eu. rewrite lookup_delete_ne, Ev by done. reflexivity.
Qed.

Lemma read_nodes_run (self : MongoDbRagProvider.t) (roi : Roi) (w : world) :
  dims roi = 3%nat ->
  MongoDbRagProvider.__read_nodes self roi w
  = (Ok (nodes_in (store w) (MongoDbRagProvider.db_name self) roi),
     log (EFind (MongoDbRagProvider.db_name self) "nodes" (range_query roi)) w).
Proof.
  intros Hdims. unfold MongoDbRagProvider.__read_nodes, nodes_in.
  pose proof (fun d => matches_range roi d Hdims) as Hmatch.
  unfold range_query in *. unfold dims, get_begin, get_end in *.
  destruct (intervals roi) as [| [bz ez] [| [by_ ey] [| [bx ex] [| ? ?]]]];
    try discriminate Hdims.
  unfold bind, lift, find. cbn -[matches]. f_equal. f_equal.
  apply list_filter_iff. intros d. by rewrite Hmatch.
Qed.

(** The run of an extraction on a store of well-shaped documents. *)
Lemma getitem_run (self : MongoDbRagProvider.t) (roi : Roi) (w : world) :
  dims roi = 3%nat ->
  store_ok (store w) (MongoDbRagProvider.db_name self) = true ->
  MongoDbRagProvider.__getitem__ self roi w
  = (Ok {| MongoDbSubRag.graph :=
             extracted (store w) (MongoDbRagProvider.db_name self) roi;
           MongoDbSubRag.db_name := MongoDbRagProvider.db_name self;
           MongoDbSubRag.host := MongoDbRagProvider.host self;
           MongoDbSubRag.mode := MongoDbRagProvider.mode self |},
     {| store := store w;
        trace := trace w ++ extract_calls self (store w) roi |}).
Proof.
  intros Hdims Hok. unfold MongoDbRagProvider.__getitem__.
  rewrite Hdims. simpl.
  apply andb_true_iff in Hok as [Hnodes Hedges].
  rewrite forallb_forall in Hnodes, Hedges.
  unfold bind at 1. unfold try_finally, MongoDbRagProvider.read_lists.
  unfold bind at 1. unfold MongoDbRagProvider.__connect, MongoClient.
  unfold bind at 1. rewrite read_nodes_run by done.
  unfold bind at 1. unfold lift.
  rewrite (comprehension_total _ node_of).
  2: { intros n Hn. apply node_item_ok, Hnodes, list_elem_of_In.
       apply list_elem_of_filter in Hn as [_ Hn]. exact Hn. }
  unfold bind at 1. unfold find. cbn -[matches].
  rewrite <- list_fmap_compose.
  assert (Hfilter : forall ids,
    filter (fun d => matches [("u", [In_ ids])] d = true)
      (documents (get_collection (store w) (MongoDbRagProvider.db_name self) "edges"))
    = edges_from (store w) (MongoDbRagProvider.db_name self) ids).
  { intros ids. apply list_filter_iff. intros e. by rewrite matches_in. }
  change (fst ∘ node_of) with id_of. rewrite Hfilter.
  unfold bind at 1.
  rewrite (comprehension_total _ edge_of).
  2: { intros e He. apply edge_item_ok, Hedges, list_elem_of_In.
       apply list_elem_of_filter in He as [_ He]. exact He. }
  unfold ret, MongoDbRagProvider.__disconnect, close, log. simpl.
  unfold MongoDbSubRag.__init__, bind, MongoClient, ret, log. simpl.
  unfold extracted, extract_calls. rewrite <- !app_assoc. reflexivity.
Qed.

(** *** The node dictionary under [add_nodes_from] and [add_edges_from] *)

Lemma lookup_node_None (n : Z) (l : list (Z * doc)) :
  lookup_node n l = None <-> n ∉ fst <$> l.
Proof.
  induction l as [| [m d] l IH]; simpl.
  - split; [intros _; apply not_elem_of_nil | done].
  - rewrite not_elem_of_cons. destruct (decide (m = n)) as [-> | Hne].
    + split; [discriminate | intros [? _]; done].
    + rewrite IH. split; [intros ?; split; [congruence | done] | intros [_ ?]; done].
Qed.

Lemma lookup_node_app (n : Z) (l k : list (Z * doc)) :
  lookup_node n (l ++ k)
  = match lookup_node n l with Some d => Some d | None => lookup_node n k end.
Proof.
  induction l as [| [m d] l IH]; simpl; [reflexivity |].
  destruct (decide (m = n)); [reflexivity | exact IH].
Qed.

Lemma lookup_add_node_eq (n : Z) (attrs : doc) (l : list (Z * doc)) :
  lookup_node n (add_node n attrs l)
  = Some (match lookup_node n l with Some d => attrs ∪ d | None => attrs end).
Proof.
  induction l as [| [m d] l IH]; simpl.
  - rewrite decide_True by done. reflexivity.
  - destruct (decide (m = n)) as [-> | Hne]; simpl.
    + rewrite decide_True by done. reflexivity.
    + rewrite decide_False by done. exact IH.
Qed.

Lemma lookup_add_node_ne (m n : Z) (attrs : doc) (l : list (Z * doc)) :
  m <> n -> lookup_node m (add_node n attrs l) = lookup_node m l.
Proof.
  intros Hmn. induction l as [| [k d] l IH]; simpl.
  - rewrite decide_False by congruence. reflexivity.
  - destruct (decide (k = n)) as [-> | Hne]; simpl.
    + rewrite !decide_False by congruence. reflexivity.
    + destruct (decide (k = m)); [reflexivity | exact IH].
Qed.

Lemma add_node_fresh (n : Z) (attrs : doc) (l : list (Z * doc)) :
  lookup_node n l = None -> add_node n attrs l = l ++ [(n, attrs)].
Proof.
  induction l as [| [m d] l IH]; simpl; [reflexivity |].
  destruct (decide (m = n)); [discriminate |]. intros H. by rewrite IH.
Qed.

Lemma lookup_node_NoDup (n : Z) (a : doc) (l : list (Z * doc)) :
  NoDup (fst <$> l) -> (n, a) ∈ l -> lookup_node n l = Some a.
Proof.
  induction l as [| [m d] l IH]; simpl; intros Hnd Hin.
  - by apply elem_of_nil in Hin.
  - apply NoDup_cons in Hnd as [Hm Hnd].
    apply elem_of_cons in Hin as [[= <- <-] | Hin].
    + rewrite decide_True by done. reflexivity.
    + destruct (decide (m = n)) as [-> | Hne]; [| by apply IH].
      exfalso. apply Hm. apply list_elem_of_fmap. exists (n, a). done.
Qed.

Lemma add_nodes_from_cons (g : Graph) (n : Z) (a : doc) (ns : list (Z * doc)) :
  add_nodes_from g ((n, a) :: ns)
  = add_nodes_from {| node := add_node n a (node g); edges := edges g |} ns.
Proof. reflexivity. Qed.

Lemma add_nodes_from_edges (ns : list (Z * doc)) :
  forall g, edges (add_nodes_from g ns) = edges g.
Proof.
  induction ns as [| [n a] ns IH]; intros g; [reflexivity |].
  rewrite add_nodes_from_cons, IH. reflexivity.
Qed.

(** Distinct ids: the nodes are appended as they come. *)
Lemma add_nodes_from_fresh (ns : list (Z * doc)) :
  forall g, NoDup (fst <$> (node g ++ ns)) ->
            node (add_nodes_from g ns) = node g ++ ns.
Proof.
  induction ns as [| [n a] ns IH]; intros g Hnd.
  - simpl. by rewrite app_nil_r.
  - rewrite add_nodes_from_cons.
    assert (Hfresh : lookup_node n (node g) = None).
    { apply lookup_node_None. rewrite fmap_app in Hnd.
      apply NoDup_app in Hnd as (_ & Hdisj & _). intros Hin.
      apply (Hdisj n Hin). simpl. apply list_elem_of_here. }
    rewrite IH; simpl; rewrite add_node_fresh by done.
    + by rewrite <- app_assoc.
    + by rewrite <- app_assoc.
Qed.

(** Nodes that come with a position: a node of the result has a position
    exactly when it had one before or its id is among the new ones. *)
Lemma add_nodes_from_full (ns : list (Z * doc)) :
  (forall n a, (n, a) ∈ ns -> is_Some (a !! "center_z")) ->
  forall g n,
    full n (node (add_nodes_from g ns)) <-> full n (node g) \/ n ∈ fst <$> ns.
Proof.
  induction ns as [| [m a] ns IH]; intros Hpos g n.
  - simpl. split; [by left | intros [? | H]; [done | by apply elem_of_nil in H]].
  - rewrite add_nodes_from_cons, IH
      by (intros n' a' H'; apply (Hpos n' a'), list_elem_of_further, H').
    simpl. rewrite elem_of_cons. unfold full.
    assert (Ha : is_Some (a !! "center_z")) by apply (Hpos m a), list_elem_of_here.
    destruct (decide (n = m)) as [-> | Hne].
    + rewrite lookup_add_node_eq. split; [intros _; right; by left |].
      intros _. left. eexists. split; [reflexivity |].
      destruct (lookup_node m (node g)) as [d |]; [| exact Ha].
      destruct Ha as [cz Hcz]. exists cz. apply lookup_union_Some_l, Hcz.
    + rewrite lookup_add_node_ne by done. split.
      * intros [H | H]; [by left | right; by right].
      * intros [H | [H | H]]; [by left | done | by right].
Qed.

Lemma lookup_ensure_node (m n : Z) (l : list (Z * doc)) :
  lookup_node m (ensure_node n l)
  = match lookup_node m l with
    | Some d => Some d
    | None => if decide (m = n) then Some ∅ else None
    end.
Proof.
  unfold ensure_node. destruct (lookup_node n l) as [d |] eqn:Hn.
  - destruct (lookup_node m l) eqn:Hm; [reflexivity |].
    destruct (decide (m = n)) as [-> | _]; [congruence | reflexivity].
  - rewrite lookup_node_app. simpl.
    destruct (lookup_node m l); [reflexivity |].
    destruct (decide (n = m)) as [-> | Hne].
    + rewrite decide_True by done. reflexivity.
    + rewrite decide_False by congruence. reflexivity.
Qed.

Lemma add_edges_from_cons (g : Graph) (e : Z * Z * doc) (es : list (Z * Z * doc)) :
  add_edges_from g (e :: es) = add_edges_from (add_edge g e) es.
Proof. reflexivity. Qed.

(** [add_edges_from] leaves the nodes it finds as they are, and creates the
    missing endpoints without attributes. *)
Lemma lookup_add_edges_from (n : Z) (es : list (Z * Z * doc)) :
  forall g,
    lookup_node n (node (add_edges_from g es))
    = match lookup_node n (node g) with
      | Some d => Some d
      | None => if endpoint n es then Some ∅ else None
      end.
Proof.
  induction es as [| [[u v] dd] es IH]; intros g.
  - simpl. destruct (lookup_node n (node g)); reflexivity.
  - rewrite add_edges_from_cons, IH. simpl.
    rewrite !lookup_ensure_node.
    destruct (lookup_node n (node g)) as [d |]; [reflexivity |].
    destruct (decide (n = u)) as [-> | Hu].
    + rewrite bool_decide_eq_true_2 by done. reflexivity.
    + rewrite (bool_decide_eq_false_2 (n = u)) by done. simpl.
      destruct (decide (n = v)) as [-> | Hv].
      * rewrite bool_decide_eq_true_2 by done. reflexivity.
      * rewrite bool_decide_eq_false_2 by done. reflexivity.
Qed.

(** *** The edges under [add_edges_from] *)

Lemma same_edge_canonical (u v a b : Z) :
  same_edge u v a b = true <-> (Z.min u v, Z.max u v) = (Z.min a b, Z.max a b).
Proof.
  unfold same_edge. rewrite bool_decide_eq_true. split.
  - intros [[-> ->] | [-> ->]]; [reflexivity |].
    by rewrite Z.min_comm, Z.max_comm.
  - intros [= Hmin Hmax]. lia.
Qed.

Lemma put_edge_has (u v : Z) (dd : doc) (l : list (Z * Z * doc)) :
  has_edge u v (put_edge u v dd l).
Proof.
  induction l as [| [[a b] d] l IH]; simpl.
  - exists u, v, dd. split; [apply list_elem_of_here |].
    apply same_edge_canonical. reflexivity.
  - destruct (same_edge u v a b) eqn:Hsame.
    + exists a, b, (dd ∪ d). split; [apply list_elem_of_here | exact Hsame].
    + destruct IH as (a' & b' & d' & Hin & H). exists a', b', d'.
      split; [by apply list_elem_of_further | exact H].
Qed.

Lemma put_edge_keeps (u v u' v' : Z) (dd : doc) (l : list (Z * Z * doc)) :
  has_edge u v l -> has_edge u v (put_edge u' v' dd l).
Proof.
  intros (a & b & d & Hin & Hsame).
  induction l as [| [[a0 b0] d0] l IH]; simpl.
  - by apply elem_of_nil in Hin.
  - apply elem_of_cons in Hin as [[= <- <- <-] | Hin].
    + destruct (same_edge u' v' a b).
      * exists a, b, (dd ∪ d). split; [apply list_elem_of_here | exact Hsame].
      * exists a, b, d. split; [apply list_elem_of_here | exact Hsame].
    + destruct (same_edge u' v' a0 b0).
      * exists a, b, d. split; [by apply list_elem_of_further | exact Hsame].
      * destruct (IH Hin) as (a' & b' & d' & Hin' & H'). exists a', b', d'.
        split; [by apply list_elem_of_further | exact H'].
Qed.

Lemma add_edges_from_keeps (u v : Z) (es : list (Z * Z * doc)) :
  forall g, has_edge u v (edges g) -> has_edge u v (edges (add_edges_from g es)).
Proof.
  induction es as [| [[a b] d] es IH]; intros g Hg; [exact Hg |].
  rewrite add_edges_from_cons. apply IH. simpl. by apply put_edge_keeps.
Qed.

Lemma add_edges_from_has (u v : Z) (dd : doc) (es : list (Z * Z * doc)) :
  forall g, (u, v, dd) ∈ es -> has_edge u v (edges (add_edges_from g es)).
Proof.
  induction es as [| [[a b] d] es IH]; intros g Hin.
  - by apply elem_of_nil in Hin.
  - rewrite add_edges_from_cons.
    apply elem_of_cons in Hin as [[= <- <- <-] | Hin]; [| by apply IH].
    apply add_edges_from_keeps. simpl. apply put_edge_has.
Qed.

Lemma put_edge_fresh (u v : Z) (dd : doc) (l : list (Z * Z * doc)) :
  canonical (u, v, dd) ∉ canonical <$> l -> put_edge u v dd l = l ++ [(u, v, dd)].
Proof.
  induction l as [| [[a b] d] l IH]; simpl; [reflexivity |].
  rewrite not_elem_of_cons. intros [Hne Hl].
  destruct (same_edge u v a b) eqn:Hsame.
  - apply same_edge_canonical in Hsame. contradiction.
  - by rewrite IH.
Qed.

(** Distinct canonical keys: the edges are appended as they come. *)
Lemma add_edges_from_fresh (es : list (Z * Z * doc)) :
  forall g, NoDup (canonical <$> (edges g ++ es)) ->
            edges (add_edges_from g es) = edges g ++ es.
Proof.
  induction es as [| [[u v] dd] es IH]; intros g Hnd.
  - simpl. by rewrite app_nil_r.
  - rewrite add_edges_from_cons.
    assert (Hfresh : canonical (u, v, dd) ∉ canonical <$> edges g).
    { rewrite fmap_app in Hnd. apply NoDup_app in Hnd as (_ & Hdisj & _).
      intros Hin. apply (Hdisj _ Hin). rewrite fmap_cons. apply list_elem_of_here. }
    rewrite IH; simpl; rewrite put_edge_fresh by done.
    + by rewrite <- app_assoc.
    + by rewrite <- app_assoc.
Qed.

(** *** What an extraction returns *)

Lemma within_between (b e : Z) (v : option value) :
  within b e v = true <-> between b e v.
Proof.
  unfold within, between. destruct v as [[z | n d | s] |].
  - rewrite andb_true_iff, Z.leb_le, Z.ltb_lt. split.
    + intros H. left. exists z. done.
    + intros [(z' & [= <-] & H) | (? & ? & [=] & _)]. exact H.
  - rewrite andb_true_iff, Z.leb_le, Z.ltb_lt. split.
    + intros H. right. exists n, d. done.
    + intros [(? & [=] & _) | (n' & d' & [= <- <-] & H)]. exact H.
  - split; [discriminate | intros [(? & [=] & _) | (? & ? & [=] & _)]].
  - split; [discriminate | intros [(? & [=] & _) | (? & ? & [=] & _)]].
Qed.

Lemma in_region_iff (roi : Roi) (d : doc) :
  in_region roi d = true <->
  exists bz ez by_ ey bx ex,
    intervals roi = [(bz, ez); (by_, ey); (bx, ex)]
    /\ between bz ez (d !! "center_z")
    /\ between by_ ey (d !! "center_y")
    /\ between bx ex (d !! "center_x").
Proof.
  unfold in_region. split.
  - destruct (intervals roi) as [| [bz ez] [| [by_ ey] [| [bx ex] [| ? ?]]]];
      try discriminate.
    rewrite !andb_true_iff, !within_between. intros [[Hz Hy] Hx].
    exists bz, ez, by_, ey, bx, ex. done.
  - intros (bz & ez & by_ & ey & bx & ex & -> & Hz & Hy & Hx).
    rewrite !andb_true_iff, !within_between. done.
Qed.

Lemma between_is_Some (b e : Z) (v : option value) : between b e v -> is_Some v.
Proof. intros [(z & -> & _) | (n & d & -> & _)]; eauto. Qed.

(** On integer centers, lying in a region is the containment of the
    position. *)
Lemma in_region_position (roi : Roi) (d : doc) (p : Z * Z * Z) :
  position d = Some p -> in_region roi d = inside roi p.
Proof.
  unfold position, in_region, inside, within.
  destruct (d !! "center_z") as [[z | ? ? | ?] |]; try discriminate.
  destruct (d !! "center_y") as [[y | ? ? | ?] |]; try discriminate.
  destruct (d !! "center_x") as [[x | ? ? | ?] |]; try discriminate.
  intros [= <-].
  destruct (intervals roi) as [| [bz ez] [| [by_ ey] [| [bx ex] [| ? ?]]]];
    reflexivity.
Qed.

Lemma id_of_field (d : doc) (n : Z) :
  node_doc_ok d = true -> (id_of d = n <-> d !! "id" = Some (VInt n)).
Proof.
  unfold node_doc_ok, id_of, int_field. intros H.
  apply bool_decide_eq_true_1 in H as [i Hi].
  destruct (d !! "id") as [[z | ? ? | ?] |]; try discriminate Hi. simpl.
  split; [intros -> | intros [= ->]]; reflexivity.
Qed.

(** The ids that the range query returns are the ids of the persisted
    nodes that lie in the region. *)
Lemma ids_in_region (s : server) (db : string) (roi : Roi) (n : Z) :
  store_ok s db = true ->
  n ∈ id_of <$> nodes_in s db roi
  <-> exists d, d ∈ documents (get_collection s db "nodes")
                /\ d !! "id" = Some (VInt n) /\ in_region roi d = true.
Proof.
  intros Hok. apply andb_true_iff in Hok as [Hnodes _].
  rewrite forallb_forall in Hnodes.
  rewrite list_elem_of_fmap. unfold nodes_in. split.
  - intros (d & -> & Hd). apply list_elem_of_filter in Hd as [Hin Hd].
    exists d. split; [done |]. split; [| done].
    apply id_of_field; [apply Hnodes, list_elem_of_In, Hd | reflexivity].
  - intros (d & Hd & Hid & Hin). exists d. split.
    + symmetry. apply id_of_field; [apply Hnodes, list_elem_of_In, Hd | done].
    + apply list_elem_of_filter. done.
Qed.

Lemma node_of_positioned (roi : Roi) (docs : list doc) (n : Z) (a : doc) :
  (n, a) ∈ node_of <$> filter (fun d => in_region roi d = true) docs ->
  is_Some (a !! "center_z").
Proof.
  intros H. apply list_elem_of_fmap in H as (d & Heq & Hd).
  apply list_elem_of_filter in Hd as [Hin _].
  apply in_region_iff in Hin as (bz & ez & _ & _ & _ & _ & _ & Hz & _).
  apply between_is_Some in Hz.
  inversion Heq; subst. rewrite lookup_delete_ne by done. exact Hz.
Qed.

Lemma extracted_full (s : server) (db : string) (roi : Roi) (n : Z) :
  full n (node (extracted s db roi)) <-> n ∈ id_of <$> nodes_in s db roi.
Proof.
  unfold extracted.
  pose proof (add_nodes_from_full (node_of <$> nodes_in s db roi)
                (node_of_positioned roi _) empty_graph n) as Hfull.
  rewrite <- list_fmap_compose in Hfull.
  change (fst ∘ node_of) with id_of in Hfull.
  split.
  - intros (d & Hd & Hcz). rewrite lookup_add_edges_from in Hd.
    destruct (lookup_node n (node (add_nodes_from empty_graph
                                     (node_of <$> nodes_in s db roi))))
      as [d' |] eqn:Hl.
    + inversion Hd; subst.
      destruct (proj1 Hfull) as [(d0 & Hd0 & _) | Hin]; [| discriminate Hd0 | exact Hin].
      exists d. split; [exact Hl | exact Hcz].
    + destruct (endpoint n _); [| discriminate Hd].
      inversion Hd; subst. destruct Hcz as [cz Hcz].
      rewrite lookup_empty in Hcz. discriminate Hcz.
  - intros Hin. destruct (proj2 Hfull (or_intror Hin)) as (d & Hd & Hcz).
    exists d. rewrite lookup_add_edges_from, Hd. done.
Qed.

Lemma extracted_nodes_fresh (s : server) (db : string) (roi : Roi) :
  NoDup (id_of <$> nodes_in s db roi) ->
  node (add_nodes_from empty_graph (node_of <$> nodes_in s db roi))
  = node_of <$> nodes_in s db roi.
Proof.
  intros Hnd. rewrite add_nodes_from_fresh; [reflexivity |].
  simpl. rewrite <- list_fmap_compose. exact Hnd.
Qed.

Lemma extracted_node_exact (s : server) (db : string) (roi : Roi) (d : doc) :
  NoDup (id_of <$> nodes_in s db roi) ->
  d ∈ nodes_in s db roi ->
  lookup_node (id_of d) (node (extracted s db roi)) = Some (delete "id" d).
Proof.
  intros Hnd Hd. unfold extracted.
  rewrite lookup_add_edges_from, extracted_nodes_fresh by done.
  rewrite (lookup_node_NoDup (id_of d) (delete "id" d)); [reflexivity | |].
  - rewrite <- list_fmap_compose. exact Hnd.
  - apply list_elem_of_fmap. exists d. done.
Qed.

(** C7: for a region of three dimensions and a store of well-shaped
    documents, the range query of [__read_nodes] returns exactly the
    persisted nodes whose three center fields hold numbers, integers or
    floats, that lie in the half-open intervals of the region ([between]
    compares a number with the bounds of an interval, the lower one
    included and the upper one excluded), and [__getitem__] returns,
    without changing the store, a graph whose nodes with a position are
    exactly those: a node of the graph has position fields if and only if
    a persisted node with that id lies inside the region.  When the ids of
    the nodes found are distinct, each of them is in the graph with its
    persisted fields, the id apart. *)
Theorem C7_extract_range (self : MongoDbRagProvider.t) (roi : Roi) (w : world) :
  let db := MongoDbRagProvider.db_name self in
  let persisted := documents (get_collection (store w) db "nodes") in
  dims roi = 3%nat ->
  store_ok (store w) db = true ->
  fst (MongoDbRagProvider.__read_nodes self roi w)
    = Ok (filter (fun d => in_region roi d = true) persisted)
  /\ (forall d, in_region roi d = true <->
        exists bz ez by_ ey bx ex,
          intervals roi = [(bz, ez); (by_, ey); (bx, ex)]
          /\ between bz ez (d !! "center_z")
          /\ between by_ ey (d !! "center_y")
          /\ between bx ex (d !! "center_x"))
  /\ exists g w',
       MongoDbRagProvider.__getitem__ self roi w = (Ok g, w')
       /\ store w' = store w
       /\ (forall n,
             (exists d, lookup_node n (node (MongoDbSubRag.graph g)) = Some d
                        /\ is_Some (d !! "center_z"))
             <-> exists d, d ∈ persisted /\ d !! "id" = Some (VInt n)
                           /\ in_region roi d = true)
       /\ (NoDup (id_of <$> filter (fun d => in_region roi d = true) persisted) ->
           forall d n, d ∈ persisted -> in_region roi d = true ->
                       d !! "id" = Some (VInt n) ->
                       lookup_node n (node (MongoDbSubRag.graph g))
                       = Some (delete "id" d)).
Proof.
  intros db persisted Hdims Hok.
  split; [rewrite read_nodes_run by done; reflexivity |].
  split; [intros d; apply in_region_iff |].
  eexists _, _. split; [apply getitem_run; done |].
  cbn [store MongoDbSubRag.graph].
  split; [reflexivity |]. split.
  - intros n. etransitivity; [apply extracted_full |].
    apply ids_in_region, Hok.
  - intros Hnd d n Hd Hin Hid.
    assert (Hn : id_of d = n).
    { apply id_of_field; [| exact Hid].
      apply andb_true_iff in Hok as [Hnodes _].
      rewrite forallb_forall in Hnodes. apply Hnodes, list_elem_of_In, Hd. }
    rewrite <- Hn. apply extracted_node_exact; [exact Hnd |].
    apply list_elem_of_filter. done.
Qed.

Lemma C7_extract_range_witness :
  fst (MongoDbRagProvider.__read_nodes (provider "rag" None "r+") (cube 0 5)
         (no_calls populated))
  = Ok [record_1].
Proof.
  destruct (C7_extract_range (provider "rag" None "r+") (cube 0 5) (no_calls populated))
    as (Hread & _); [reflexivity | reflexivity |].
  exact Hread.
Defined.

Lemma add_nodes_from_absent (ns : list (Z * doc)) :
  forall g n,
    lookup_node n (node g) = None -> n ∉ fst <$> ns ->
    lookup_node n (node (add_nodes_from g ns)) = None.
Proof.
  induction ns as [| [m a] ns IH]; intros g n Hg Hn; [exact Hg |].
  rewrite add_nodes_from_cons. simpl in Hn.
  apply not_elem_of_cons in Hn as [Hne Hn].
  apply IH; [| exact Hn]. simpl. by rewrite lookup_add_node_ne.
Qed.

Lemma endpoint_second (u v : Z) (dd : doc) (es : list (Z * Z * doc)) :
  (u, v, dd) ∈ es -> endpoint v es = true.
Proof.
  intros Hin. unfold endpoint. apply existsb_exists.
  exists (u, v, dd). split; [by apply list_elem_of_In |].
  rewrite (bool_decide_eq_true_2 (v = v)) by done. apply orb_true_r.
Qed.

Lemma edge_of_fields (e : doc) (u v : Z) :
  e !! "u" = Some (VInt u) -> e !! "v" = Some (VInt v) ->
  edge_of e = (u, v, delete "v" (delete "u" e)).
Proof.
  intros Hu Hv. unfold edge_of, int_field. rewrite Hu, Hv. reflexivity.
Qed.

(** C6: for a region of three dimensions and a store of well-shaped
    documents, [__getitem__] returns a graph that has, for every persisted
    edge whose ['u'] is the id of a node returned by the range query, an
    edge between its ['u'] and its ['v'], wherever ['v'] lies; when ['v'] is
    not the id of a returned node, the graph has the node ['v'] with an
    empty attribute dictionary: no position and no attribute.  When the
    edges found have distinct canonical keys, each is in the graph with its
    persisted attributes. *)
Theorem C6_extract_boundary_edges (self : MongoDbRagProvider.t) (roi : Roi)
    (w : world) :
  let db := MongoDbRagProvider.db_name self in
  let returned := filter (fun d => in_region roi d = true)
                    (documents (get_collection (store w) db "nodes")) in
  let ids := id_of <$> returned in
  dims roi = 3%nat ->
  store_ok (store w) db = true ->
  fst (MongoDbRagProvider.__read_nodes self roi w) = Ok returned
  /\ exists g w',
       MongoDbRagProvider.__getitem__ self roi w = (Ok g, w')
       /\ forall e u v,
            e ∈ documents (get_collection (store w) db "edges") ->
            e !! "u" = Some (VInt u) -> e !! "v" = Some (VInt v) ->
            u ∈ ids ->
            (exists a b d, (a, b, d) ∈ edges (MongoDbSubRag.graph g)
                           /\ ((u = a /\ v = b) \/ (u = b /\ v = a)))
            /\ (v ∉ ids -> lookup_node v (node (MongoDbSubRag.graph g)) = Some ∅)
            /\ (NoDup (canonical <$> (edge_of <$> edges_from (store w) db ids)) ->
                (u, v, delete "v" (delete "u" e)) ∈ edges (MongoDbSubRag.graph g)).
Proof.
  intros db returned ids Hdims Hok.
  split; [rewrite read_nodes_run by done; reflexivity |].
  eexists _, _. split; [apply getitem_run; done |].
  cbn [MongoDbSubRag.graph].
  intros e u v He Hu Hv Hin.
  assert (Hfound : (u, v, delete "v" (delete "u" e))
                   ∈ edge_of <$> edges_from (store w) db ids).
  { apply list_elem_of_fmap. exists e. split; [by rewrite (edge_of_fields e u v) |].
    apply list_elem_of_filter. split; [| exact He].
    unfold leaves_from, int_field. rewrite Hu. by apply bool_decide_eq_true_2. }
  split; [| split].
  - destruct (add_edges_from_has u v _ _
                (add_nodes_from empty_graph (node_of <$> returned)) Hfound)
      as (a & b & d & Hd & Hsame).
    exists a, b, d. split; [exact Hd |].
    unfold same_edge in Hsame. by apply bool_decide_eq_true_1 in Hsame.
  - intros Hv'. unfold extracted. rewrite lookup_add_edges_from.
    rewrite add_nodes_from_absent.
    + pose proof (endpoint_second u v _ _ Hfound) as Hend.
      unfold ids, returned, db in Hend. unfold nodes_in. by rewrite Hend.
    + reflexivity.
    + rewrite <- list_fmap_compose. exact Hv'.
  - intros Hnd. unfold extracted. rewrite add_edges_from_fresh.
    + rewrite add_nodes_from_edges. exact Hfound.
    + rewrite add_nodes_from_edges. exact Hnd.
Qed.

Lemma C6_extract_boundary_edges_witness :
  exists g w',
    MongoDbRagProvider.__getitem__ (provider "rag" None "r+") (cube 0 5)
      (no_calls populated) = (Ok g, w')
    /\ (1, 2, delete "v" (delete "u" edge_1_2)) ∈ edges (MongoDbSubRag.graph g)
    /\ lookup_node 2 (node (MongoDbSubRag.graph g)) = Some ∅.
Proof.
  destruct (C6_extract_boundary_edges (provider "rag" None "r+") (cube 0 5)
              (no_calls populated))
    as (_ & g & w' & Hrun & Hedges); [reflexivity | reflexivity |].
  exists g, w'. split; [exact Hrun |].
  destruct (Hedges edge_1_2 1 2) as (_ & Hstub & Hexact).
  - apply list_elem_of_here.
  - reflexivity.
  - reflexivity.
  - apply list_elem_of_here.
  - split.
    + apply Hexact. refine (bool_decide_unpack _ _). vm_compute. exact I.
    + apply Hstub. refine (bool_decide_unpack _ _). vm_compute. exact I.
Defined.

(** ** Extraction establishes the data model of a sub-graph

    The graph that [__getitem__] assembles satisfies what the results on
    [sync_edges] assume: its nodes have a complete position or no
    attribute at all, and the endpoints of its edges are nodes. *)

Lemma position_union_l (a d : doc) :
  is_Some (position a) -> position (a ∪ d) = position a.
Proof.
  unfold position. intros [p Hp].
  destruct (a !! "center_z") as [vz |] eqn:Hz; [| discriminate Hp].
  destruct (a !! "center_y") as [vy |] eqn:Hy; [| destruct vz; discriminate Hp].
  destruct (a !! "center_x") as [vx |] eqn:Hx; [| destruct vz, vy; discriminate Hp].
  rewrite (lookup_union_Some_l a d _ _ Hz), (lookup_union_Some_l a d _ _ Hy),
    (lookup_union_Some_l a d _ _ Hx).
  reflexivity.
Qed.

Lemma add_node_positioned (n : Z) (a : doc) (l : list (Z * doc)) :
  is_Some (position a) ->
  Forall (fun p => is_Some (position (snd p))) l ->
  Forall (fun p => is_Some (position (snd p))) (add_node n a l).
Proof.
  intros Ha Hl. induction Hl as [| [m d] l Hd Hl IH]; simpl.
  - by constructor.
  - destruct (decide (m = n)).
    + constructor; [| exact Hl]. simpl. by rewrite position_union_l.
    + by constructor.
Qed.

Lemma add_nodes_from_positioned (ns : list (Z * doc)) :
  Forall (fun p => is_Some (position (snd p))) ns ->
  forall g,
    Forall (fun p => is_Some (position (snd p))) (node g) ->
    Forall (fun p => is_Some (position (snd p))) (node (add_nodes_from g ns)).
Proof.
  induction 1 as [| [n a] ns Ha Hns IH]; intros g Hg; [exact Hg |].
  rewrite add_nodes_from_cons. apply IH. simpl. by apply add_node_positioned.
Qed.

Lemma node_of_position (d : doc) :
  is_Some (position d) -> is_Some (position (snd (node_of d))).
Proof.
  unfold node_of, position. simpl.
  rewrite !lookup_delete_ne by done. done.
Qed.

(** [add_edges_from] appends nodes without attributes, and nothing else. *)
Lemma add_edges_from_nodes (es : list (Z * Z * doc)) :
  forall g, exists k,
    node (add_edges_from g es) = node g ++ k /\ Forall (fun p => snd p = ∅) k.
Proof.
  assert (Hensure : forall n l, exists k,
            ensure_node n l = l ++ k /\ Forall (fun p : Z * doc => snd p = ∅) k).
  { intros n l. unfold ensure_node. destruct (lookup_node n l).
    - exists []. by rewrite app_nil_r.
    - exists [(n, ∅)]. split; [reflexivity |]. by repeat constructor. }
  induction es as [| [[u v] dd] es IH]; intros g.
  - exists []. simpl. by rewrite app_nil_r.
  - rewrite add_edges_from_cons.
    destruct (IH (add_edge g (u, v, dd))) as (k & -> & Hk). simpl.
    destruct (Hensure u (node g)) as (k1 & -> & Hk1).
    destruct (Hensure v (node g ++ k1)) as (k2 & -> & Hk2).
    exists (k1 ++ k2 ++ k). rewrite <- !app_assoc. split; [reflexivity |].
    by repeat apply Forall_app_2.
Qed.

Lemma extracted_nodes_ok (s : server) (db : string) (roi : Roi) :
  (forall d, d ∈ nodes_in s db roi -> is_Some (position d)) ->
  nodes_ok (extracted s db roi) = true.
Proof.
  intros Hint. unfold nodes_ok, extracted.
  destruct (add_edges_from_nodes (edge_of <$> edges_from s db (id_of <$> nodes_in s db roi))
              (add_nodes_from empty_graph (node_of <$> nodes_in s db roi)))
    as (k & -> & Hk).
  rewrite forallb_app. apply andb_true_iff. split.
  - apply forallb_forall. intros [n d] Hin. apply list_elem_of_In in Hin.
    assert (Hpos : Forall (fun p => is_Some (position (snd p)))
                     (node (add_nodes_from empty_graph (node_of <$> nodes_in s db roi)))).
    { apply add_nodes_from_positioned; [| constructor].
      apply Forall_fmap, Forall_forall. intros d' Hd'.
      by apply node_of_position, Hint. }
    rewrite Forall_forall in Hpos. specialize (Hpos _ Hin). simpl in Hpos.
    unfold position_ok. destruct (d !! "center_z"); [| reflexivity].
    by apply bool_decide_eq_true_2.
  - apply forallb_forall. intros [n d] Hin. apply list_elem_of_In in Hin.
    rewrite Forall_forall in Hk. specialize (Hk _ Hin). simpl in Hk. subst d.
    reflexivity.
Qed.

Lemma put_edge_elem (u v a b : Z) (dd d : doc) (l : list (Z * Z * doc)) :
  (a, b, d) ∈ put_edge u v dd l ->
  (exists d', (a, b, d') ∈ l) \/ (a = u /\ b = v).
Proof.
  induction l as [| [[a0 b0] d0] l IH]; simpl.
  - intros H. apply list_elem_of_singleton in H. inversion H; subst. by right.
  - destruct (same_edge u v a0 b0).
    + intros H. apply elem_of_cons in H as [[= -> -> ->] | H].
      * left. exists d0. apply list_elem_of_here.
      * left. exists d. by apply list_elem_of_further.
    + intros H. apply elem_of_cons in H as [[= -> -> ->] | H].
      * left. exists d0. apply list_elem_of_here.
      * destruct (IH H) as [[d' Hd'] | Heq]; [left | by right].
        exists d'. by apply list_elem_of_further.
Qed.

Lemma add_edge_endpoints (g : Graph) (e : Z * Z * doc) :
  endpoints_ok g = true -> endpoints_ok (add_edge g e) = true.
Proof.
  destruct e as [[u v] dd]. unfold endpoints_ok. rewrite !forallb_forall.
  intros Hg [[a b] d] Hin. apply list_elem_of_In in Hin. simpl in Hin.
  assert (Hkeep : forall n, is_Some (lookup_node n (node g)) ->
            is_Some (lookup_node n (ensure_node v (ensure_node u (node g))))).
  { intros n [x Hx]. rewrite !lookup_ensure_node, Hx. eauto. }
  assert (Hu : is_Some (lookup_node u (ensure_node v (ensure_node u (node g))))).
  { rewrite !lookup_ensure_node. destruct (lookup_node u (node g)); [eauto |].
    rewrite decide_True by done. eauto. }
  assert (Hv : is_Some (lookup_node v (ensure_node v (ensure_node u (node g))))).
  { rewrite !lookup_ensure_node. destruct (lookup_node v (node g)); [eauto |].
    destruct (decide (v = u)); [eauto |]. rewrite decide_True by done. eauto. }
  simpl. apply andb_true_iff.
  destruct (put_edge_elem _ _ _ _ _ _ _ Hin) as [[d' Hd'] | [-> ->]].
  - apply list_elem_of_In, Hg in Hd'. simpl in Hd'.
    apply andb_true_iff in Hd' as [Ha Hb].
    apply bool_decide_eq_true_1 in Ha, Hb.
    split; apply bool_decide_eq_true_2; by apply Hkeep.
  - split; by apply bool_decide_eq_true_2.
Qed.

Lemma extracted_endpoints_ok (s : server) (db : string) (roi : Roi) :
  endpoints_ok (extracted s db roi) = true.
Proof.
  unfold extracted.
  assert (Hfold : forall es g, endpoints_ok g = true ->
            endpoints_ok (add_edges_from g es) = true).
  { induction es as [| e es IH]; intros g Hg; [exact Hg |].
    rewrite add_edges_from_cons. by apply IH, add_edge_endpoints. }
  apply Hfold. unfold endpoints_ok. by rewrite add_nodes_from_edges.
Qed.

Lemma getitem_fits_data_model (self : MongoDbRagProvider.t) (roi : Roi)
    (w w' : world) (g : MongoDbSubRag.t) :
  dims roi = 3%nat ->
  store_ok (store w) (MongoDbRagProvider.db_name self) = true ->
  (forall d, d ∈ nodes_in (store w) (MongoDbRagProvider.db_name self) roi ->
             is_Some (position d)) ->
  MongoDbRagProvider.__getitem__ self roi w = (Ok g, w') ->
  nodes_ok (MongoDbSubRag.graph g) = true
  /\ endpoints_ok (MongoDbSubRag.graph g) = true
  /\ MongoDbSubRag.mode g = MongoDbRagProvider.mode self.
Proof.
  intros Hdims Hok Hint Hrun. rewrite getitem_run in Hrun by done.
  inversion Hrun; subst; simpl.
  split; [by apply extracted_nodes_ok |]. split; [apply extracted_endpoints_ok | done].
Qed.

(** * Further properties of the code *)

(** ** [__remove_keys] *)

Lemma remove_keys_ok (keys : list string) :
  forall (dictionary d' : doc),
    MongoDbRagProvider.__remove_keys dictionary keys = Ok d' ->
    NoDup keys
    /\ (forall k, k ∈ keys -> is_Some (dictionary !! k))
    /\ (forall k, k ∈ keys -> d' !! k = None)
    /\ (forall k, k ∉ keys -> d' !! k = dictionary !! k).
Proof.
  induction keys as [| key keys IH]; intros dictionary d' Hrun; simpl in Hrun.
  - inversion Hrun; subst. split; [constructor |].
    split; [intros k Hk; by apply elem_of_nil in Hk |].
    split; [intros k Hk; by apply elem_of_nil in Hk | done].
  - destruct (dictionary !! key) as [v |] eqn:Hkey; [| discriminate].
    apply IH in Hrun as (Hnd & Hall & Hgone & Hkeep).
    assert (Hfresh : key ∉ keys).
    { intros Hin. destruct (Hall key Hin) as [x Hx].
      rewrite lookup_delete_eq in Hx. discriminate Hx. }
    split; [by constructor |]. split; [| split].
    + intros k Hk. apply elem_of_cons in Hk as [-> | Hk]; [by rewrite Hkey |].
      destruct (Hall k Hk) as [x Hx].
      destruct (decide (key = k)) as [-> | Hne]; [contradiction |].
      rewrite lookup_delete_ne in Hx by done. eauto.
    + intros k Hk. apply elem_of_cons in Hk as [-> | Hk]; [| by apply Hgone].
      rewrite Hkeep by done. apply lookup_delete_eq.
    + intros k Hk. apply not_elem_of_cons in Hk as [Hne Hk].
      rewrite Hkeep by done. by apply lookup_delete_ne.
Qed.

Lemma remove_keys_total (keys : list string) :
  forall dictionary : doc,
    NoDup keys -> (forall k, k ∈ keys -> is_Some (dictionary !! k)) ->
    exists d', MongoDbRagProvider.__remove_keys dictionary keys = Ok d'.
Proof.
  induction keys as [| key keys IH]; intros dictionary Hnd Hall; simpl.
  - eauto.
  - apply NoDup_cons in Hnd as [Hfresh Hnd].
    destruct (Hall key) as [v Hv]; [apply list_elem_of_here |]. rewrite Hv.
    apply IH; [exact Hnd |]. intros k Hk.
    rewrite lookup_delete_ne by (intros ->; contradiction).
    by apply Hall, list_elem_of_further.
Qed.

Lemma remove_keys_raise (keys : list string) :
  forall (dictionary : doc) e,
    MongoDbRagProvider.__remove_keys dictionary keys = Raise e ->
    exists k, k ∈ keys /\ e = KeyError (VStr k).
Proof.
  induction keys as [| key keys IH]; intros dictionary e Hrun; simpl in Hrun.
  - discriminate Hrun.
  - destruct (dictionary !! key) as [v |].
    + destruct (IH _ _ Hrun) as (k & Hk & ->). exists k.
      split; [by apply list_elem_of_further | reflexivity].
    + inversion Hrun; subst. exists key. split; [apply list_elem_of_here | done].
Qed.

(** X1: [__remove_keys] returns exactly when the keys are pairwise distinct
    and all present in the dictionary; the result then has none of the
    keys and every other entry as it was.  Otherwise it raises [KeyError]
    on one of the keys: a key that is missing, or one that is listed twice
    and was already deleted. *)
Theorem X1_remove_keys_spec (dictionary : doc) (keys : list string) :
  ((NoDup keys /\ forall k, k ∈ keys -> is_Some (dictionary !! k))
   <-> exists d', MongoDbRagProvider.__remove_keys dictionary keys = Ok d')
  /\ (forall d', MongoDbRagProvider.__remove_keys dictionary keys = Ok d' ->
        (forall k, k ∈ keys -> d' !! k = None)
        /\ (forall k, k ∉ keys -> d' !! k = dictionary !! k))
  /\ (forall e, MongoDbRagProvider.__remove_keys dictionary keys = Raise e ->
        exists k, k ∈ keys /\ e = KeyError (VStr k)).
Proof.
  split; [split |].
  - intros [Hnd Hall]. by apply remove_keys_total.
  - intros [d' Hrun]. apply remove_keys_ok in Hrun as (? & ? & _). done.
  - split.
    + intros d' Hrun. apply remove_keys_ok in Hrun as (_ & _ & ? & ?). done.
    + apply remove_keys_raise.
Qed.

Lemma X1_remove_keys_spec_witness :
  edge_1_2 !! "score" = Some (VInt 9)
  /\ exists d', MongoDbRagProvider.__remove_keys edge_1_2 ["u"; "v"] = Ok d'
                /\ d' !! "u" = None /\ d' !! "score" = Some (VInt 9).
Proof.
  split; [reflexivity |].
  destruct (X1_remove_keys_spec edge_1_2 ["u"; "v"]) as (_ & Hok & _).
  exists (delete "v" (delete "u" edge_1_2)). split; [reflexivity |].
  destruct (Hok (delete "v" (delete "u" edge_1_2)) eq_refl) as [Hgone Hkeep].
  split.
  - apply Hgone. apply list_elem_of_here.
  - rewrite Hkeep; [reflexivity |].
    intros H. apply elem_of_cons in H as [H | H]; [discriminate H |].
    apply elem_of_cons in H as [H | H]; [discriminate H |].
    by apply elem_of_nil in H.
Defined.

(** ** A node that [_contains] cannot read *)

Lemma centers_numeric_lookup (g : Graph) (n : Z) (d : doc) :
  centers_numeric g = true -> lookup_node n (node g) = Some d ->
  number_or_absent (d !! "center_z") = true
  /\ number_or_absent (d !! "center_y") = true
  /\ number_or_absent (d !! "center_x") = true.
Proof.
  unfold centers_numeric. rewrite forallb_forall. intros Hall Hd.
  apply lookup_node_elem, list_elem_of_In, Hall in Hd.
  apply andb_true_iff in Hd as [Hd Hx]. apply andb_true_iff in Hd as [Hz Hy].
  done.
Qed.

Lemma int_number (v : value) :
  number_or_absent (Some v) = true -> exists z, int v = Ok z.
Proof. destruct v; simpl; [eauto | eauto | discriminate]. Qed.

(** The test raises the [KeyError] of the missing field, and answers on
    every other node whose centers are numbers. *)
Lemma contains_missing (self : MongoDbSubRag.t) (roi : Roi) (u v : Z) (d : doc) :
  centers_numeric (MongoDbSubRag.graph self) = true ->
  lookup_node u (node (MongoDbSubRag.graph self)) = Some d ->
  match missing_center d with
  | Some k => MongoDbSubRag._contains self roi (u, v) = Raise (KeyError (VStr k))
  | None => exists c, MongoDbSubRag._contains self roi (u, v) = Ok c
  end.
Proof.
  intros Hnum Hd.
  destruct (centers_numeric_lookup _ _ _ Hnum Hd) as (Hz & Hy & Hx).
  unfold MongoDbSubRag._contains, missing_center, getitem. rewrite Hd.
  destruct (d !! "center_z") as [vz |]; [| eauto].
  destruct (d !! "center_y") as [vy |]; [| reflexivity].
  destruct (d !! "center_x") as [vx |]; [| reflexivity].
  destruct (int_number vz Hz) as [z Ez], (int_number vy Hy) as [y Ey],
    (int_number vx Hx) as [x Ex].
  cbn [rbind Coordinate]. rewrite Ez, Ey, Ex. cbn [rbind]. eauto.
Qed.

Lemma sync_edges_loop_missing (self : MongoDbSubRag.t) (roi : Roi)
    (es : list (Z * Z * doc)) :
  let g := MongoDbSubRag.graph self in
  centers_numeric g = true ->
  (forall a b data, (a, b, data) ∈ es -> is_Some (lookup_node (Z.min a b) (node g))) ->
  (exists a b data d,
     (a, b, data) ∈ es /\ lookup_node (Z.min a b) (node g) = Some d
     /\ is_Some (missing_center d)) ->
  exists k, (k = "center_y" \/ k = "center_x")
            /\ forall acc, MongoDbSubRag.sync_edges_loop self roi es acc
                           = Raise (KeyError (VStr k)).
Proof.
  intros g Hnum. induction es as [| [[a0 b0] data0] es IH]; intros Hends Hbad.
  - destruct Hbad as (a & b & data & d & Hin & _). by apply elem_of_nil in Hin.
  - destruct (Hends a0 b0 data0) as [d0 Hd0]; [apply list_elem_of_here |].
    pose proof (contains_missing self roi (Z.min a0 b0) (Z.max a0 b0) d0 Hnum Hd0)
      as Htest.
    destruct (missing_center d0) as [k |] eqn:Hmiss.
    + exists k. split.
      * unfold missing_center in Hmiss.
        destruct (d0 !! "center_z"), (d0 !! "center_y"), (d0 !! "center_x");
          inversion Hmiss; auto.
      * intros acc. cbn [MongoDbSubRag.sync_edges_loop].
        unfold MongoDbSubRag.sync_edges_body. cbv zeta. rewrite Htest.
        reflexivity.
    + destruct IH as (k & Hk & Hloop).
      * intros a b data Hin. eapply Hends, list_elem_of_further, Hin.
      * destruct Hbad as (a & b & data & d & Hin & Hd & Hm).
        apply elem_of_cons in Hin as [[= -> -> ->] | Hin].
        { rewrite Hd0 in Hd. inversion Hd; subst d.
          rewrite Hmiss in Hm. by destruct Hm. }
        exists a, b, data, d. done.
      * exists k. split; [exact Hk |]. intros acc.
        cbn [MongoDbSubRag.sync_edges_loop].
        destruct Htest as [c Htest].
        unfold MongoDbSubRag.sync_edges_body. cbv zeta. rewrite Htest.
        destruct c; cbn [rbind negb]; apply Hloop.
Qed.

(** X2: a node that has a ['center_z'] but lacks ['center_y'] or
    ['center_x'] stops [sync_edges] before any call to the server.  On a
    sub-graph that is not read-only, whose edges join nodes and whose
    center fields, where present, are numbers: when the smaller endpoint of
    some edge is such a node, [sync_edges] raises the [KeyError] of the
    missing field met first, and the world is the one it started from: no
    [insert_many] is issued, not even for the edges that were selected
    before. *)
Theorem X2_unreadable_node_aborts (self : MongoDbSubRag.t) (roi : Roi)
    (w : world) (a b : Z) (data d : doc) :
  let g := MongoDbSubRag.graph self in
  MongoDbSubRag.mode self <> "r" ->
  centers_numeric g = true ->
  endpoints_ok g = true ->
  (a, b, data) ∈ edges g ->
  lookup_node (Z.min a b) (node g) = Some d ->
  is_Some (d !! "center_z") ->
  d !! "center_y" = None \/ d !! "center_x" = None ->
  exists k, (k = "center_y" \/ k = "center_x")
            /\ MongoDbSubRag.sync_edges self roi w = (Raise (KeyError (VStr k)), w).
Proof.
  intros g Hmode Hnum Hends Hin Hd [cz Hcz] Hlack.
  destruct (sync_edges_loop_missing self roi (edges g) Hnum) as (k & Hk & Hloop).
  - intros a' b' data' Hin'. eapply endpoints_ok_min; eassumption.
  - exists a, b, data, d. split; [exact Hin |]. split; [exact Hd |].
    unfold missing_center. rewrite Hcz.
    destruct Hlack as [-> | Hx]; [eauto |].
    destruct (d !! "center_y"); rewrite ?Hx; eauto.
  - exists k. split; [exact Hk |].
    rewrite sync_edges_writable by done. fold g. by rewrite Hloop.
Qed.

Lemma X2_unreadable_node_aborts_witness :
  exists k, (k = "center_y" \/ k = "center_x")
            /\ MongoDbSubRag.sync_edges (sub_rag flat_graph "r+") (cube 0 10)
                 (no_calls linked)
               = (Raise (KeyError (VStr k)), no_calls linked).
Proof.
  apply (X2_unreadable_node_aborts (sub_rag flat_graph "r+") (cube 0 10)
           (no_calls linked) 1 2 ∅ {["center_z" := VInt 0]}).
  - discriminate.
  - reflexivity.
  - reflexivity.
  - apply list_elem_of_here.
  - reflexivity.
  - eexists. reflexivity.
  - left. reflexivity.
Defined.

(** ** Every run of [__getitem__] *)

(** The run on any store: the two comprehensions decide the outcome. *)
Lemma getitem_run_any (self : MongoDbRagProvider.t) (roi : Roi) (w : world) :
  dims roi = 3%nat ->
  let db := MongoDbRagProvider.db_name self in
  let host := MongoDbRagProvider.host self in
  MongoDbRagProvider.__getitem__ self roi w
  = match MongoDbRagProvider.comprehension MongoDbRagProvider.node_item
            (nodes_in (store w) db roi) with
    | Raise e =>
        (Raise e,
         {| store := store w;
            trace := trace w ++ [EConnect host;
                                 EFind db "nodes" (range_query roi);
                                 EClose] |})
    | Ok node_list =>
        match MongoDbRagProvider.comprehension MongoDbRagProvider.edge_item
                (edges_from (store w) db (fst <$> node_list)) with
        | Raise e =>
            (Raise e,
             {| store := store w;
                trace := trace w ++ [EConnect host;
                                     EFind db "nodes" (range_query roi);
                                     EFind db "edges" [("u", [In_ (fst <$> node_list)])];
                                     EClose] |})
        | Ok edge_list =>
            (Ok {| MongoDbSubRag.graph :=
                     add_edges_from (add_nodes_from empty_graph node_list) edge_list;
                   MongoDbSubRag.db_name := db;
                   MongoDbSubRag.host := host;
                   MongoDbSubRag.mode := MongoDbRagProvider.mode self |},
             {| store := store w;
                trace := trace w ++ [EConnect host;
                                     EFind db "nodes" (range_query roi);
                                     EFind db "edges" [("u", [In_ (fst <$> node_list)])];
                                     EClose;
                                     EConnect host] |})
        end
    end.
Proof.
  intros Hdims db host. unfold MongoDbRagProvider.__getitem__.
  rewrite Hdims. cbn [Nat.eqb negb].
  unfold bind at 1. unfold try_finally, MongoDbRagProvider.read_lists.
  unfold bind at 1. unfold MongoDbRagProvider.__connect, MongoClient.
  unfold bind at 1. rewrite read_nodes_run by done.
  unfold bind at 1. unfold lift. fold db.
  destruct (MongoDbRagProvider.comprehension MongoDbRagProvider.node_item _)
    as [node_list | e].
  - unfold bind at 1. unfold find. cbn -[matches].
    assert (Hfilter : forall ids,
      filter (fun d => matches [("u", [In_ ids])] d = true)
        (documents (get_collection (store w) db "edges"))
      = edges_from (store w) db ids).
    { intros ids. apply list_filter_iff. intros e. by rewrite matches_in. }
    rewrite Hfilter. unfold bind at 1.
    destruct (MongoDbRagProvider.comprehension MongoDbRagProvider.edge_item _)
      as [edge_list | e].
    + unfold ret, MongoDbRagProvider.__disconnect, close, log. simpl.
      unfold MongoDbSubRag.__init__, bind, MongoClient, ret, log. simpl.
      rewrite <- !app_assoc. reflexivity.
    + unfold MongoDbRagProvider.__disconnect, close, log. simpl.
      rewrite <- !app_assoc. reflexivity.
  - unfold MongoDbRagProvider.__disconnect, close, log. simpl.
    rewrite <- !app_assoc. reflexivity.
Qed.

Lemma comprehension_raise {A B} (f : A -> result B) (xs : list A) (e : exn) :
  MongoDbRagProvider.comprehension f xs = Raise e ->
  exists x, x ∈ xs /\ f x = Raise e.
Proof.
  induction xs as [| x xs IH]; simpl; [discriminate |].
  destruct (f x) as [y | e'] eqn:Hx; simpl.
  - destruct (MongoDbRagProvider.comprehension f xs) as [ys | e'']; simpl;
      [discriminate |].
    intros [= <-]. destruct IH as (x' & Hin & Hx'); [reflexivity |].
    exists x'. split; [by apply list_elem_of_further | exact Hx'].
  - intros [= <-]. exists x. split; [apply list_elem_of_here | exact Hx].
Qed.

Lemma comprehension_ok {A B} (f : A -> result B) (xs : list A) (ys : list B) :
  MongoDbRagProvider.comprehension f xs = Ok ys ->
  forall x, x ∈ xs -> exists y, f x = Ok y.
Proof.
  revert ys. induction xs as [| x xs IH]; intros ys Hrun x' Hin.
  - by apply elem_of_nil in Hin.
  - simpl in Hrun. destruct (f x) as [y | e] eqn:Hx; simpl in Hrun; [| discriminate].
    destruct (MongoDbRagProvider.comprehension f xs) as [ys' | e]; simpl in Hrun;
      [| discriminate].
    apply elem_of_cons in Hin as [-> | Hin]; [eauto |].
    by apply (IH ys').
Qed.

Lemma node_item_ok_inv (n : doc) (y : Z * doc) :
  MongoDbRagProvider.node_item n = Ok y -> node_doc_ok n = true.
Proof.
  unfold MongoDbRagProvider.node_item, node_doc_ok, int_field, getitem.
  destruct (n !! "id") as [[z | ? ? | ?] |]; simpl; try discriminate.
  intros _. reflexivity.
Qed.

Lemma edge_item_ok_inv (e : doc) (y : Z * Z * doc) :
  MongoDbRagProvider.edge_item e = Ok y -> edge_doc_ok e = true.
Proof.
  unfold MongoDbRagProvider.edge_item, edge_doc_ok, int_field, getitem.
  destruct (e !! "u") as [[u | ? ? | ?] |]; simpl; try discriminate.
  destruct (e !! "v") as [[v | ? ? | ?] |]; simpl; try discriminate.
  intros _. reflexivity.
Qed.

(** X3: [__getitem__] never changes the content of the server: for every
    provider, every region (three-dimensional or not) and every store,
    well-shaped or not, the store after the call is the store before it,
    whether the call returns a sub-graph or raises. *)
Theorem X3_extract_leaves_store (self : MongoDbRagProvider.t) (roi : Roi)
    (w : world) :
  store (snd (MongoDbRagProvider.__getitem__ self roi w)) = store w.
Proof.
  destruct (decide (dims roi = 3%nat)) as [Hdims | Hdims].
  - rewrite getitem_run_any by done.
    destruct (MongoDbRagProvider.comprehension MongoDbRagProvider.node_item _)
      as [node_list | e]; [| reflexivity].
    destruct (MongoDbRagProvider.comprehension MongoDbRagProvider.edge_item _)
      as [edge_list | e]; reflexivity.
  - unfold MongoDbRagProvider.__getitem__.
    destruct (Nat.eqb_spec (dims roi) 3) as [? | _]; [contradiction |].
    reflexivity.
Qed.

(** *** Documents that lack a field *)

Lemma node_item_typed (n : doc) :
  int_or_absent (n !! "id") = true ->
  MongoDbRagProvider.node_item n
  = match n !! "id" with
    | Some _ => Ok (node_of n)
    | None => Raise (KeyError (VStr "id"))
    end.
Proof.
  unfold MongoDbRagProvider.node_item, node_of, id_of, int_field, getitem.
  destruct (n !! "id") as [[z | ? ? | ?] |] eqn:Hid; try discriminate; intros _.
  - simpl. rewrite Hid. reflexivity.
  - reflexivity.
Qed.

Lemma edge_item_typed (e : doc) :
  int_or_absent (e !! "u") = true -> int_or_absent (e !! "v") = true ->
  is_Some (e !! "u") ->
  MongoDbRagProvider.edge_item e
  = match e !! "v" with
    | Some _ => Ok (edge_of e)
    | None => Raise (KeyError (VStr "v"))
    end.
Proof.
  unfold MongoDbRagProvider.edge_item, edge_of, int_field, getitem.
  intros Hu Hv [u' Hsome].
  destruct (e !! "u") as [[u | ? ? | ?] |] eqn:Eu; try discriminate.
  destruct (e !! "v") as [[v | ? ? | ?] |] eqn:Ev; try discriminate.
  - simpl. rewrite Eu. rewrite lookup_delete_ne, Ev by done. reflexivity.
  - reflexivity.
Qed.

(** A comprehension whose function can only raise [e] raises [e] as soon
    as one element makes it raise. *)
Lemma comprehension_first_raise {A B} (f : A -> result B) (xs : list A) (e : exn) :
  (forall x, x ∈ xs -> (exists y, f x = Ok y) \/ f x = Raise e) ->
  (exists x, x ∈ xs /\ f x = Raise e) ->
  MongoDbRagProvider.comprehension f xs = Raise e.
Proof.
  induction xs as [| x xs IH]; intros Hall (x' & Hin & Hx').
  - by apply elem_of_nil in Hin.
  - simpl. destruct (Hall x) as [[y Hy] | Hy]; [apply list_elem_of_here | |].
    + rewrite Hy. simpl. rewrite IH; [reflexivity | |].
      * intros z Hz. apply Hall, list_elem_of_further, Hz.
      * apply elem_of_cons in Hin as [-> | Hin]; [congruence |].
        exists x'. done.
    + rewrite Hy. reflexivity.
Qed.

Lemma store_typed_node (s : server) (db : string) (roi : Roi) (n : doc) :
  store_typed s db = true -> n ∈ nodes_in s db roi ->
  int_or_absent (n !! "id") = true.
Proof.
  intros Hok Hn. apply andb_true_iff in Hok as [Hnodes _].
  rewrite forallb_forall in Hnodes. apply Hnodes, list_elem_of_In.
  apply list_elem_of_filter in Hn as [_ Hn]. exact Hn.
Qed.

Lemma store_typed_edge (s : server) (db : string) (ids : list Z) (e : doc) :
  store_typed s db = true -> e ∈ edges_from s db ids ->
  int_or_absent (e !! "u") = true /\ int_or_absent (e !! "v") = true
  /\ is_Some (e !! "u").
Proof.
  intros Hok He. apply andb_true_iff in Hok as [_ Hedges].
  rewrite forallb_forall in Hedges.
  apply list_elem_of_filter in He as [Hfrom He].
  apply list_elem_of_In, Hedges, andb_true_iff in He as [Hu Hv].
  split; [exact Hu |]. split; [exact Hv |].
  unfold leaves_from in Hfrom. destruct (e !! "u"); [eauto | discriminate].
Qed.

Lemma typed_node_doc_ok (n : doc) :
  int_or_absent (n !! "id") = true -> is_Some (n !! "id") -> node_doc_ok n = true.
Proof.
  unfold node_doc_ok, int_field. intros Ht [v Hv]. rewrite Hv in *.
  destruct v; try discriminate Ht. apply bool_decide_eq_true_2. eauto.
Qed.

Lemma typed_edge_doc_ok (e : doc) :
  int_or_absent (e !! "u") = true -> int_or_absent (e !! "v") = true ->
  is_Some (e !! "u") -> is_Some (e !! "v") -> edge_doc_ok e = true.
Proof.
  unfold edge_doc_ok, int_field. intros Hu Hv [u Eu] [v Ev]. rewrite Eu, Ev in *.
  destruct u; try discriminate Hu. destruct v; try discriminate Hv.
  apply andb_true_iff. split; apply bool_decide_eq_true_2; eauto.
Qed.

(** X4: a document that lacks a field makes [__getitem__] raise, and the
    connection is closed all the same ([finally]).  On a region of three
    dimensions and a store whose id fields, where present, are integers:
    when a node document that the range query returns has no ['id'], the
    call raises [KeyError] for ['id'] after the first query, without
    issuing the second; when every such document has one, and an edge
    document found from these ids has no ['v'], the call raises [KeyError]
    for ['v'] after both queries.  In both cases the last call is the
    [close] of the connection, no client of a sub-graph is opened, and the
    store is unchanged. *)
Theorem X4_extract_failure_closes (self : MongoDbRagProvider.t) (roi : Roi)
    (w : world) :
  let db := MongoDbRagProvider.db_name self in
  let host := MongoDbRagProvider.host self in
  let returned := nodes_in (store w) db roi in
  let ids := id_of <$> returned in
  dims roi = 3%nat ->
  store_typed (store w) db = true ->
  ((exists n, n ∈ returned /\ n !! "id" = None) ->
   MongoDbRagProvider.__getitem__ self roi w
   = (Raise (KeyError (VStr "id")),
      {| store := store w;
         trace := trace w ++ [EConnect host;
                              EFind db "nodes" (range_query roi);
                              EClose] |}))
  /\ ((forall n, n ∈ returned -> is_Some (n !! "id")) ->
      (exists e, e ∈ edges_from (store w) db ids /\ e !! "v" = None) ->
      MongoDbRagProvider.__getitem__ self roi w
      = (Raise (KeyError (VStr "v")),
         {| store := store w;
            trace := trace w ++ [EConnect host;
                                 EFind db "nodes" (range_query roi);
                                 EFind db "edges" [("u", [In_ ids])];
                                 EClose] |})).
Proof.
  intros db host returned ids Hdims Htyped.
  rewrite getitem_run_any by done. fold db host returned. split.
  - intros (n & Hn & Hid).
    rewrite (comprehension_first_raise _ _ (KeyError (VStr "id"))); [reflexivity | |].
    + intros x Hx. rewrite node_item_typed by (eapply store_typed_node; eassumption).
      destruct (x !! "id"); eauto.
    + exists n. split; [exact Hn |].
      rewrite node_item_typed by (eapply store_typed_node; eassumption).
      by rewrite Hid.
  - intros Hall (e & He & Hv).
    rewrite (comprehension_total _ node_of).
    2: { intros n Hn. rewrite node_item_typed by (eapply store_typed_node; eassumption).
         destruct (Hall n Hn) as [i ->]. reflexivity. }
    rewrite <- list_fmap_compose. change (fst ∘ node_of) with id_of. fold ids.
    rewrite (comprehension_first_raise _ _ (KeyError (VStr "v"))); [reflexivity | |].
    + intros x Hx.
      destruct (store_typed_edge _ _ _ _ Htyped Hx) as (Hu & Hv' & Hsome).
      rewrite edge_item_typed by done. destruct (x !! "v"); eauto.
    + exists e. split; [exact He |].
      destruct (store_typed_edge _ _ _ _ Htyped He) as (Hu & Hv' & Hsome).
      rewrite edge_item_typed by done. by rewrite Hv.
Qed.

Lemma X4_extract_failure_closes_witness :
  MongoDbRagProvider.__getitem__ (provider "rag" None "r+") (cube 0 5)
    (no_calls anonymous)
  = (Raise (KeyError (VStr "id")),
     {| store := anonymous;
        trace := [] ++ [EConnect None;
                        EFind "rag" "nodes" (range_query (cube 0 5));
                        EClose] |})
  /\ MongoDbRagProvider.__getitem__ (provider "rag" None "r+") (cube 0 5)
       (no_calls dangling)
     = (Raise (KeyError (VStr "v")),
        {| store := dangling;
           trace := [] ++ [EConnect None;
                           EFind "rag" "nodes" (range_query (cube 0 5));
                           EFind "rag" "edges" [("u", [In_ [1]])];
                           EClose] |}).
Proof.
  split.
  - destruct (X4_extract_failure_closes (provider "rag" None "r+") (cube 0 5)
                (no_calls anonymous)) as [Hid _]; [reflexivity | reflexivity |].
    apply Hid. exists (position_doc 1 1 1). split; [| reflexivity].
    vm_compute. apply list_elem_of_here.
  - destruct (X4_extract_failure_closes (provider "rag" None "r+") (cube 0 5)
                (no_calls dangling)) as [_ Hv]; [reflexivity | reflexivity |].
    apply Hv.
    + intros n Hn. vm_compute in Hn.
      apply list_elem_of_singleton in Hn. subst n. eexists. reflexivity.
    + exists {["u" := VInt 1]}. split; [| reflexivity].
      vm_compute. apply list_elem_of_here.
Defined.

Lemma getitem_ok_extracted (self : MongoDbRagProvider.t) (roi : Roi)
    (w w' : world) (g : MongoDbSubRag.t) :
  MongoDbRagProvider.__getitem__ self roi w = (Ok g, w') ->
  let db := MongoDbRagProvider.db_name self in
  MongoDbSubRag.graph g = extracted (store w) db roi
  /\ (forall n, n ∈ nodes_in (store w) db roi -> node_doc_ok n = true)
  /\ (forall e, e ∈ edges_from (store w) db (id_of <$> nodes_in (store w) db roi) ->
        edge_doc_ok e = true).
Proof.
  intros Hrun db.
  assert (Hdims : dims roi = 3%nat).
  { destruct (decide (dims roi = 3%nat)) as [H | H]; [exact H |].
    unfold MongoDbRagProvider.__getitem__ in Hrun.
    destruct (Nat.eqb_spec (dims roi) 3) as [? | _]; [contradiction |].
    discriminate Hrun. }
  rewrite getitem_run_any in Hrun by done. fold db in Hrun.
  destruct (MongoDbRagProvider.comprehension MongoDbRagProvider.node_item _)
    as [node_list | e1] eqn:Hnodes; [| discriminate].
  destruct (MongoDbRagProvider.comprehension MongoDbRagProvider.edge_item _)
    as [edge_list | e2] eqn:Hedges; [| discriminate].
  assert (Hok : forall n, n ∈ nodes_in (store w) db roi -> node_doc_ok n = true).
  { intros n Hn. destruct (comprehension_ok _ _ _ Hnodes n Hn) as [y Hy].
    eapply node_item_ok_inv, Hy. }
  rewrite (comprehension_total _ node_of) in Hnodes
    by (intros n Hn; apply node_item_ok, Hok, Hn).
  inversion Hnodes; subst node_list.
  rewrite <- list_fmap_compose in Hedges. change (fst ∘ node_of) with id_of in Hedges.
  assert (Hok' : forall e,
            e ∈ edges_from (store w) db (id_of <$> nodes_in (store w) db roi) ->
            edge_doc_ok e = true).
  { intros e He. destruct (comprehension_ok _ _ _ Hedges e He) as [y Hy].
    eapply edge_item_ok_inv, Hy. }
  rewrite (comprehension_total _ edge_of) in Hedges
    by (intros e He; apply edge_item_ok, Hok', He).
  inversion Hedges; subst edge_list.
  inversion Hrun; subst. done.
Qed.

(** X5: on a region of three dimensions and a store whose id fields,
    where present, are integers, [__getitem__] returns a sub-graph exactly
    when every node document that the range query returns has an ['id'] and
    every edge document found from these ids has a ['v']; documents that
    the two queries do not return may lack any field. *)
Theorem X5_extract_succeeds_iff (self : MongoDbRagProvider.t) (roi : Roi)
    (w : world) :
  let db := MongoDbRagProvider.db_name self in
  let returned := nodes_in (store w) db roi in
  dims roi = 3%nat ->
  store_typed (store w) db = true ->
  (exists g w', MongoDbRagProvider.__getitem__ self roi w = (Ok g, w'))
  <-> (forall n, n ∈ returned -> is_Some (n !! "id"))
      /\ (forall e, e ∈ edges_from (store w) db (id_of <$> returned) ->
            is_Some (e !! "v")).
Proof.
  intros db returned Hdims Htyped. split.
  - intros (g & w' & Hrun).
    destruct (getitem_ok_extracted self roi w w' g Hrun) as (_ & Hnodes & Hedges).
    split.
    + intros n Hn. apply Hnodes in Hn. unfold node_doc_ok, int_field in Hn.
      apply bool_decide_eq_true_1 in Hn. destruct (n !! "id"); [eauto |].
      by destruct Hn.
    + intros e He. apply Hedges in He. unfold edge_doc_ok, int_field in He.
      apply andb_true_iff in He as [_ Hv].
      apply bool_decide_eq_true_1 in Hv. destruct (e !! "v"); [eauto |].
      by destruct Hv.
  - intros [Hnodes Hedges]. rewrite getitem_run_any by done. fold db returned.
    rewrite (comprehension_total _ node_of).
    2: { intros n Hn. apply node_item_ok, typed_node_doc_ok; [| by apply Hnodes].
         eapply store_typed_node; eassumption. }
    rewrite <- list_fmap_compose. change (fst ∘ node_of) with id_of.
    rewrite (comprehension_total _ edge_of).
    2: { intros e He.
         destruct (store_typed_edge _ _ _ _ Htyped He) as (Hu & Hv & Hsome).
         apply edge_item_ok, typed_edge_doc_ok; try done. by apply Hedges. }
    eauto.
Qed.

Lemma X5_extract_succeeds_iff_witness :
  (exists g w',
     MongoDbRagProvider.__getitem__ (provider "rag" None "r+") (cube 0 5)
       (no_calls populated) = (Ok g, w'))
  /\ ~ (exists g w',
          MongoDbRagProvider.__getitem__ (provider "rag" None "r+") (cube 0 5)
            (no_calls dangling) = (Ok g, w')).
Proof.
  split.
  - destruct (X5_extract_succeeds_iff (provider "rag" None "r+") (cube 0 5)
                (no_calls populated)) as [_ Hback]; [reflexivity | reflexivity |].
    apply Hback. split.
    + intros n Hn. vm_compute in Hn.
      apply list_elem_of_singleton in Hn. subst n. eexists. reflexivity.
    + intros e He. vm_compute in He.
      apply list_elem_of_singleton in He. subst e. eexists. reflexivity.
  - intros Hrun.
    destruct (X5_extract_succeeds_iff (provider "rag" None "r+") (cube 0 5)
                (no_calls dangling)) as [Hforth _]; [reflexivity | reflexivity |].
    destruct (Hforth Hrun) as [_ Hv].
    destruct (Hv {["u" := VInt 1]}) as [v Hsome].
    + vm_compute. apply list_elem_of_here.
    + discriminate Hsome.
Defined.

(** X6: the sub-graph that [__getitem__] returns is bound to the database,
    the host and the mode of the provider.  So a sub-graph extracted
    through a provider in mode ['r'] refuses both write-back calls, on any
    world, with the read-only [RuntimeError]. *)
Theorem X6_extract_binds_mode (self : MongoDbRagProvider.t) (roi roi' : Roi)
    (w w' w'' : world) (g : MongoDbSubRag.t) :
  MongoDbRagProvider.__getitem__ self roi w = (Ok g, w') ->
  MongoDbSubRag.db_name g = MongoDbRagProvider.db_name self
  /\ MongoDbSubRag.host g = MongoDbRagProvider.host self
  /\ MongoDbSubRag.mode g = MongoDbRagProvider.mode self
  /\ (MongoDbRagProvider.mode self = "r" ->
      MongoDbSubRag.sync_nodes g w''
        = (Raise (RuntimeError "Trying to write to read-only DB"), w'')
      /\ MongoDbSubRag.sync_edges g roi' w''
        = (Raise (RuntimeError "Trying to write to read-only DB"), w'')).
Proof.
  intros Hrun.
  assert (Hdims : dims roi = 3%nat).
  { destruct (decide (dims roi = 3%nat)) as [H | H]; [exact H |].
    unfold MongoDbRagProvider.__getitem__ in Hrun.
    destruct (Nat.eqb_spec (dims roi) 3) as [? | _]; [contradiction |].
    discriminate Hrun. }
  rewrite getitem_run_any in Hrun by done.
  destruct (MongoDbRagProvider.comprehension MongoDbRagProvider.node_item _)
    as [node_list | e1]; [| discriminate].
  destruct (MongoDbRagProvider.comprehension MongoDbRagProvider.edge_item _)
    as [edge_list | e2]; [| discriminate].
  inversion Hrun; subst; simpl.
  repeat split; try reflexivity.
  - by apply sync_nodes_read_only.
  - by apply sync_edges_read_only.
Qed.

Lemma X6_extract_binds_mode_witness :
  exists g w',
    MongoDbRagProvider.__getitem__ (provider "rag" None "r") (cube 0 5)
      (no_calls populated) = (Ok g, w')
    /\ MongoDbSubRag.sync_nodes g w'
       = (Raise (RuntimeError "Trying to write to read-only DB"), w').
Proof.
  destruct (MongoDbRagProvider.__getitem__ (provider "rag" None "r") (cube 0 5)
              (no_calls populated)) as [[g | e] w'] eqn:Hrun.
  - exists g, w'. split; [reflexivity |].
    destruct (X6_extract_binds_mode (provider "rag" None "r") (cube 0 5) (cube 0 5)
                (no_calls populated) w' w' g Hrun) as (_ & _ & _ & Hsync).
    apply Hsync. reflexivity.
  - exfalso. vm_compute in Hrun. discriminate Hrun.
Defined.

(** ** Opening the provider, again *)

Lemma open_store (db : string) (host : option string) (mode : string) (w : world) :
  store (snd (MongoDbRagProvider.__init__ db host mode w))
  = if decide (mode = "w") then with_schema db (delete db (store w))
    else match store w !! db with
         | Some _ => store w
         | None => with_schema db (store w)
         end.
Proof.
  destruct (decide (mode = "w")) as [-> | Hmode].
  - by rewrite open_reset.
  - destruct (store w !! db) as [d |] eqn:Hdb.
    + rewrite open_existing by (rewrite ?Hdb; done). reflexivity.
    + by rewrite open_absent.
Qed.

Lemma fresh_database_documents (coll : string) :
  documents (default empty_collection (fresh_database !! coll)) = [].
Proof.
  unfold fresh_database.
  destruct (decide (coll = "edges")) as [-> | He];
    [by rewrite lookup_insert_eq |].
  rewrite lookup_insert_ne by done.
  destruct (decide (coll = "nodes")) as [-> | Hn];
    [by rewrite lookup_insert_eq |].
  rewrite lookup_insert_ne, lookup_empty by done. reflexivity.
Qed.

(** X7: what opening a provider does to the stored data.  In every mode the
    other databases of the server are left as they are, and the named
    database exists afterwards.  In a mode other than ['w'] every
    collection of the named database keeps exactly its documents; in mode
    ['w'] every collection of the named database is empty afterwards. *)
Theorem X7_open_frame (db : string) (host : option string) (mode : string)
    (w : world) :
  let w' := snd (MongoDbRagProvider.__init__ db host mode w) in
  (forall other, other <> db -> store w' !! other = store w !! other)
  /\ is_Some (store w' !! db)
  /\ (forall coll,
        documents (get_collection (store w') db coll)
        = if decide (mode = "w") then []
          else documents (get_collection (store w) db coll)).
Proof.
  cbv zeta. rewrite open_store. unfold with_schema, get_collection.
  destruct (decide (mode = "w")) as [-> | Hmode].
  - split; [| split].
    + intros other Hne. by rewrite lookup_insert_ne, lookup_delete_ne.
    + rewrite lookup_insert_eq. eauto.
    + intros coll. rewrite lookup_insert_eq. apply fresh_database_documents.
  - destruct (store w !! db) as [d |] eqn:Hdb.
    + split; [done |]. split; [rewrite Hdb; eauto |].
      intros coll. by rewrite Hdb.
    + split; [| split].
      * intros other Hne. by rewrite lookup_insert_ne.
      * rewrite lookup_insert_eq. eauto.
      * intros coll. rewrite lookup_insert_eq, ?Hdb. simpl.
        rewrite lookup_empty. apply fresh_database_documents.
Qed.

(** X8: after a provider has been opened on a database, in any mode,
    opening one again in a mode other than ['w'] lists the databases and
    nothing more: no index is created a second time and the store is left
    as the first opening left it. *)
Theorem X8_open_again (db : string) (host host' : option string)
    (mode mode' : string) (w : world) :
  mode' <> "w" ->
  let w1 := snd (MongoDbRagProvider.__init__ db host mode w) in
  MongoDbRagProvider.__init__ db host' mode' w1
  = (Ok (provider db host' mode'),
     {| store := store w1;
        trace := trace w1 ++ [EConnect host'; EListDatabaseNames; EClose] |}).
Proof.
  intros Hmode w1. apply open_existing; [exact Hmode |].
  unfold w1. rewrite open_store. unfold with_schema.
  destruct (decide (mode = "w")); [rewrite lookup_insert_eq; eauto |].
  destruct (store w !! db) as [d |] eqn:Hdb; [rewrite Hdb; eauto |].
  rewrite lookup_insert_eq. eauto.
Qed.

Lemma X8_open_again_witness :
  MongoDbRagProvider.__init__ "rag" None "r"
    (snd (MongoDbRagProvider.__init__ "rag" None "w" (no_calls populated)))
  = (Ok (provider "rag" None "r"),
     {| store := store (snd (MongoDbRagProvider.__init__ "rag" None "w"
                               (no_calls populated)));
        trace := trace (snd (MongoDbRagProvider.__init__ "rag" None "w"
                               (no_calls populated)))
                 ++ [EConnect None; EListDatabaseNames; EClose] |}).
Proof.
  apply (X8_open_again "rag" None None "w" "r" (no_calls populated)).
  discriminate.
Defined.

Lemma X7_open_frame_witness :
  store (snd (MongoDbRagProvider.__init__ "rag" None "w" (no_calls populated)))
    !! "other"
  = populated !! "other".
Proof.
  destruct (X7_open_frame "rag" None "w" (no_calls populated)) as [Hother _].
  apply Hother. discriminate.
Defined.

(** ** Batches that meet no conflict *)

Lemma get_set_collection (s : server) (db coll : string) (c : collection) :
  get_collection (set_collection s db coll c) db coll = c.
Proof.
  unfold get_collection, set_collection. rewrite lookup_insert_eq. simpl.
  by rewrite lookup_insert_eq.
Qed.

Lemma get_set_collection_ne (s : server) (db coll db' coll' : string)
    (c : collection) :
  (db', coll') <> (db, coll) ->
  get_collection (set_collection s db coll c) db' coll' = get_collection s db' coll'.
Proof.
  intros Hne. unfold get_collection, set_collection.
  destruct (decide (db' = db)) as [-> | Hdb].
  - rewrite lookup_insert_eq. simpl.
    rewrite lookup_insert_ne by congruence. reflexivity.
  - by rewrite lookup_insert_ne.
Qed.

Lemma conflicts_false (c : collection) (d : doc) :
  (forall ix, ix ∈ indexes c -> ix_unique ix = true ->
     forall d', d' ∈ documents c -> key_of (ix_keys ix) d' <> key_of (ix_keys ix) d) ->
  conflicts c d = false.
Proof.
  intros Hfree. unfold conflicts. apply not_true_is_false. intros Hex.
  apply existsb_exists in Hex as (ix & Hix & Hc).
  apply andb_true_iff in Hc as [Hu Hc].
  apply existsb_exists in Hc as (d' & Hd' & Heq).
  apply bool_decide_eq_true_1 in Heq.
  apply list_elem_of_In in Hix, Hd'. exact (Hfree ix Hix Hu d' Hd' Heq).
Qed.

(** A batch each of whose documents differs, on every unique index, from
    the documents of the collection and from the documents before it in
    the batch, is inserted whole, ordered or not. *)
Lemma insert_batch_all (o : bool) (ds : list doc) :
  forall (i : nat) (c : collection),
    (forall ix, ix ∈ indexes c -> ix_unique ix = true ->
       NoDup (key_of (ix_keys ix) <$> ds)
       /\ forall d d', d ∈ ds -> d' ∈ documents c ->
            key_of (ix_keys ix) d' <> key_of (ix_keys ix) d) ->
    insert_batch o i ds c = (extended c ds, []).
Proof.
  induction ds as [| d ds IH]; intros i c Hfree; simpl.
  - unfold extended. rewrite app_nil_r. by destruct c.
  - rewrite conflicts_false.
    2: { intros ix Hix Hu d' Hd'. destruct (Hfree ix Hix Hu) as [_ Hout].
         apply Hout; [apply list_elem_of_here | exact Hd']. }
    rewrite IH.
    + unfold extended, push. simpl. by rewrite <- app_assoc.
    + intros ix Hix Hu. simpl in Hix. destruct (Hfree ix Hix Hu) as [Hnd Hout].
      rewrite fmap_cons in Hnd. apply NoDup_cons in Hnd as [Hd Hnd].
      split; [exact Hnd |]. intros d1 d' Hd1 Hd'. simpl in Hd'.
      apply elem_of_app in Hd' as [Hd' | Hd'].
      * apply Hout; [by apply list_elem_of_further | exact Hd'].
      * apply list_elem_of_singleton in Hd' as ->. intros Heq. apply Hd.
        rewrite Heq. by apply list_elem_of_fmap_2.
Qed.

Lemma insert_many_all (db coll : string) (docs : list doc) (o : bool) (w : world) :
  docs <> [] ->
  (forall ix, ix ∈ indexes (get_collection (store w) db coll) ->
     ix_unique ix = true ->
     NoDup (key_of (ix_keys ix) <$> docs)
     /\ forall d d', d ∈ docs ->
          d' ∈ documents (get_collection (store w) db coll) ->
          key_of (ix_keys ix) d' <> key_of (ix_keys ix) d) ->
  insert_many db coll docs o w
  = (Ok tt,
     {| store := set_collection (store w) db coll
                   (extended (get_collection (store w) db coll) docs);
        trace := trace w ++ [EInsertMany db coll docs o] |}).
Proof.
  intros Hne Hfree. unfold insert_many. destruct docs as [| d ds]; [done |].
  rewrite insert_batch_all by exact Hfree. reflexivity.
Qed.

(** ** Writing new nodes, and reading them back *)

Lemma sync_nodes_batch (l : list (Z * doc)) :
  (fun '(node_id, data) => data ∪ <["id" := VInt node_id]> (∅ : doc)) <$> l
  = node_record <$> l.
Proof. apply list_fmap_ext. intros i [n d] _. reflexivity. Qed.

Lemma node_record_id (n : Z) (d : doc) :
  d !! "id" = None -> node_record (n, d) !! "id" = Some (VInt n).
Proof.
  intros Hd. unfold node_record. simpl.
  by rewrite lookup_union, Hd, lookup_insert_eq.
Qed.

Lemma node_record_keys (l : list (Z * doc)) :
  (forall n d, (n, d) ∈ l -> d !! "id" = None) ->
  key_of ["id"] <$> (node_record <$> l) = (fun p => [Some (VInt (fst p))]) <$> l.
Proof.
  intros Hid. rewrite <- list_fmap_compose. apply list_fmap_ext.
  intros i [n d] Hi. simpl. unfold key_of. simpl.
  rewrite node_record_id; [reflexivity |].
  apply (Hid n d), list_elem_of_lookup. eauto.
Qed.

Lemma sync_nodes_fresh (self : MongoDbSubRag.t) (w : world) :
  let db := MongoDbSubRag.db_name self in
  let c := get_collection (store w) db "nodes" in
  let g := MongoDbSubRag.graph self in
  MongoDbSubRag.mode self <> "r" ->
  node g <> [] ->
  (forall ix, ix ∈ indexes c -> ix_unique ix = true -> ix_keys ix = ["id"]) ->
  NoDup (fst <$> node g) ->
  (forall n d, (n, d) ∈ node g -> d !! "id" = None) ->
  (forall n d d', (n, d) ∈ node g -> d' ∈ documents c -> d' !! "id" <> Some (VInt n)) ->
  MongoDbSubRag.sync_nodes self w
  = (Ok tt,
     {| store := set_collection (store w) db "nodes"
                   (extended c (node_record <$> node g));
        trace := trace w ++ [EInsertMany db "nodes" (node_record <$> node g) true] |}).
Proof.
  intros db c g Hmode Hne Hix Hnd Hid Hnew.
  rewrite sync_nodes_writable by done. fold g. rewrite sync_nodes_batch.
  destruct (node_record <$> node g) as [| r rs] eqn:Hbatch.
  { destruct (node g); [done | discriminate Hbatch]. }
  rewrite <- Hbatch. apply insert_many_all.
  { rewrite Hbatch. discriminate. }
  intros ix Hin Hu. rewrite (Hix ix Hin Hu). split.
  - rewrite node_record_keys by exact Hid.
    apply (NoDup_fmap_2_strong _ (node g)); [| apply (NoDup_fmap_1 fst), Hnd].
    intros [n1 d1] [n2 d2] H1 H2 [= Heq]. simpl in Heq. subst n2.
    f_equal. pose proof (lookup_node_NoDup n1 d1 _ Hnd H1) as E1.
    pose proof (lookup_node_NoDup n1 d2 _ Hnd H2) as E2. congruence.
  - intros r' d' Hr' Hd'. apply list_elem_of_fmap in Hr' as ([n d] & -> & Hin').
    unfold key_of. simpl. rewrite node_record_id by (eapply Hid; eauto).
    intros [= Heq]. exact (Hnew n d d' Hin' Hd' Heq).
Qed.

(** X9: [sync_nodes] writes a graph of new nodes whole.  On a sub-graph
    that is not read-only and has at least one node, whose node ids are
    pairwise distinct, whose attributes have no entry named ['id'], and none
    of whose ids is the ['id'] of a document already in the nodes
    collection, when the only unique indexes of that collection are on
    ['id'], the call returns after one [insert_many]; the collection then
    holds the documents it held followed by one record per node, in node
    order, and every other collection is as it was. *)
Theorem X9_sync_nodes_new_nodes (self : MongoDbSubRag.t) (w : world) :
  let db := MongoDbSubRag.db_name self in
  let c := get_collection (store w) db "nodes" in
  let g := MongoDbSubRag.graph self in
  MongoDbSubRag.mode self <> "r" ->
  node g <> [] ->
  (forall ix, ix ∈ indexes c -> ix_unique ix = true -> ix_keys ix = ["id"]) ->
  NoDup (fst <$> node g) ->
  (forall n d, (n, d) ∈ node g -> d !! "id" = None) ->
  (forall n d d', (n, d) ∈ node g -> d' ∈ documents c -> d' !! "id" <> Some (VInt n)) ->
  exists w',
    MongoDbSubRag.sync_nodes self w = (Ok tt, w')
    /\ trace w' = trace w ++ [EInsertMany db "nodes" (node_record <$> node g) true]
    /\ documents (get_collection (store w') db "nodes")
       = documents c ++ (node_record <$> node g)
    /\ indexes (get_collection (store w') db "nodes") = indexes c
    /\ (forall n d, (n, d) ∈ node g ->
          node_record (n, d) !! "id" = Some (VInt n)
          /\ forall k, k <> "id" -> node_record (n, d) !! k = d !! k)
    /\ (forall db' coll', (db', coll') <> (db, "nodes") ->
          get_collection (store w') db' coll' = get_collection (store w) db' coll').
Proof.
  intros db c g Hmode Hne Hix Hnd Hid Hnew.
  eexists. split; [by apply sync_nodes_fresh |]. cbn [store trace].
  split; [reflexivity |]. rewrite get_set_collection.
  split; [reflexivity |]. split; [reflexivity |]. split.
  - intros n d Hin. split; [apply node_record_id; eapply Hid; eauto |].
    intros k Hk. unfold node_record. simpl.
    rewrite lookup_union, lookup_insert_ne, lookup_empty by done.
    by destruct (d !! k).
  - intros db' coll' Hne'. by apply get_set_collection_ne.
Qed.

Lemma X9_sync_nodes_new_nodes_witness :
  exists w',
    MongoDbSubRag.sync_nodes (sub_rag two_nodes "r+") (no_calls (with_schema "rag" ∅))
    = (Ok tt, w')
    /\ documents (get_collection (store w') "rag" "nodes")
       = [] ++ (node_record <$> node two_nodes).
Proof.
  destruct (X9_sync_nodes_new_nodes (sub_rag two_nodes "r+")
              (no_calls (with_schema "rag" ∅)))
    as (w' & Hrun & _ & Hdocs & _).
  - discriminate.
  - discriminate.
  - intros ix Hix Hu. vm_compute in Hix.
    apply elem_of_cons in Hix as [-> | Hix]; [discriminate Hu |].
    apply elem_of_cons in Hix as [-> | Hix]; [reflexivity |].
    by apply elem_of_nil in Hix.
  - refine (bool_decide_unpack _ _). vm_compute. exact I.
  - intros n d Hin. simpl in Hin.
    apply elem_of_cons in Hin as [[= -> ->] | Hin]; [reflexivity |].
    apply elem_of_cons in Hin as [[= -> ->] | Hin]; [reflexivity |].
    by apply elem_of_nil in Hin.
  - intros n d d' _ Hd'. vm_compute in Hd'. by apply elem_of_nil in Hd'.
  - exists w'. split; [exact Hrun | exact Hdocs].
Defined.

Lemma node_record_other (n : Z) (d : doc) (k : string) :
  k <> "id" -> node_record (n, d) !! k = d !! k.
Proof.
  intros Hk. unfold node_record. simpl.
  rewrite lookup_union, lookup_insert_ne, lookup_empty by done.
  by destruct (d !! k).
Qed.

Lemma node_of_node_record (n : Z) (d : doc) :
  d !! "id" = None -> node_of (node_record (n, d)) = (n, d).
Proof.
  intros Hd. unfold node_of, id_of, int_field.
  rewrite node_record_id by done. simpl. f_equal.
  apply map_eq. intros k. destruct (decide (k = "id")) as [-> | Hk].
  - by rewrite lookup_delete_eq, Hd.
  - by rewrite lookup_delete_ne, node_record_other.
Qed.

Lemma in_region_node_record (roi : Roi) (n : Z) (d : doc) :
  in_region roi (node_record (n, d)) = in_region roi d.
Proof.
  unfold in_region, position. by rewrite !node_record_other.
Qed.

Lemma nodes_read_back (roi : Roi) (l : list (Z * doc)) :
  (forall n d, (n, d) ∈ l -> d !! "id" = None) ->
  node_of <$> filter (fun d => in_region roi d = true) (node_record <$> l)
  = filter (fun p => in_region roi (snd p) = true) l.
Proof.
  induction l as [| [n d] l IH]; intros Hid; [reflexivity |].
  rewrite fmap_cons, !filter_cons, in_region_node_record. simpl.
  assert (Hl : forall n' d', (n', d') ∈ l -> d' !! "id" = None)
    by (intros n' d' H'; apply (Hid n' d'), list_elem_of_further, H').
  destruct (decide (in_region roi d = true)).
  - rewrite fmap_cons, node_of_node_record by (apply (Hid n d), list_elem_of_here).
    by rewrite IH.
  - by apply IH.
Qed.

Lemma NoDup_fst_filter {A B} (P : A * B -> Prop) `{!forall x, Decision (P x)}
    (l : list (A * B)) :
  NoDup (fst <$> l) -> NoDup (fst <$> filter P l).
Proof.
  induction l as [| x l IH]; [done |]. rewrite fmap_cons, filter_cons.
  intros Hnd. apply NoDup_cons in Hnd as [Hx Hnd].
  destruct (decide (P x)); [| by apply IH].
  rewrite fmap_cons. apply NoDup_cons. split; [| by apply IH].
  intros Hin. apply Hx. apply list_elem_of_fmap in Hin as (y & -> & Hy).
  apply list_elem_of_filter in Hy as [_ Hy]. by apply list_elem_of_fmap_2.
Qed.

(** The run of [sync_nodes] on empty collections followed by an extraction,
    on a server that stores documents as they are sent. *)
Lemma sync_nodes_then_extract_run (self : MongoDbSubRag.t)
    (prov : MongoDbRagProvider.t) (roi : Roi) (w : world) :
  let db := MongoDbSubRag.db_name self in
  let g := MongoDbSubRag.graph self in
  MongoDbRagProvider.db_name prov = db ->
  MongoDbSubRag.mode self <> "r" ->
  node g <> [] ->
  NoDup (fst <$> node g) ->
  (forall n d, (n, d) ∈ node g -> d !! "id" = None) ->
  documents (get_collection (store w) db "nodes") = [] ->
  documents (get_collection (store w) db "edges") = [] ->
  (forall ix, ix ∈ indexes (get_collection (store w) db "nodes") ->
     ix_unique ix = true -> ix_keys ix = ["id"]) ->
  dims roi = 3%nat ->
  exists w1 g' w2,
    MongoDbSubRag.sync_nodes self w = (Ok tt, w1)
    /\ MongoDbRagProvider.__getitem__ prov roi w1 = (Ok g', w2)
    /\ MongoDbSubRag.graph g'
       = {| node := filter (fun p => in_region roi (snd p) = true) (node g);
            edges := [] |}.
Proof.
  intros db g Hdb Hmode Hne Hnd Hid Hnodes Hedges Hix Hdims.
  set (s1 := set_collection (store w) db "nodes"
               (extended (get_collection (store w) db "nodes")
                  (node_record <$> node g))).
  exists {| store := s1;
            trace := trace w ++ [EInsertMany db "nodes" (node_record <$> node g) true] |}.
  eexists _, _. split.
  { apply sync_nodes_fresh; try done. fold db. rewrite Hnodes.
    intros n d d' _ Hd'. by apply elem_of_nil in Hd'. }
  assert (Hn1 : documents (get_collection s1 db "nodes") = node_record <$> node g).
  { unfold s1. rewrite get_set_collection. unfold extended. simpl.
    by rewrite Hnodes. }
  assert (He1 : documents (get_collection s1 db "edges") = []).
  { unfold s1. rewrite get_set_collection_ne by congruence. exact Hedges. }
  split.
  - apply getitem_run; [exact Hdims |]. cbn [store]. rewrite Hdb.
    unfold store_ok. rewrite Hn1, He1. simpl. rewrite andb_true_r.
    apply forallb_forall. intros r Hr.
    apply list_elem_of_In, list_elem_of_fmap in Hr as ([n d] & -> & Hin).
    unfold node_doc_ok, int_field. rewrite node_record_id by (eapply Hid; eauto).
    reflexivity.
  - cbn [MongoDbSubRag.graph store]. rewrite Hdb.
    unfold extracted, nodes_in, edges_from. rewrite Hn1, He1.
    rewrite nodes_read_back by exact Hid.
    rewrite filter_nil. simpl.
    assert (Hnd' : NoDup (fst <$> filter (fun p => in_region roi (snd p) = true) (node g)))
      by apply NoDup_fst_filter, Hnd.
    pose proof (add_nodes_from_fresh
                  (filter (fun p => in_region roi (snd p) = true) (node g))
                  empty_graph Hnd') as Hnode.
    pose proof (add_nodes_from_edges
                  (filter (fun p => in_region roi (snd p) = true) (node g))
                  empty_graph) as Hedge.
    destruct (add_nodes_from empty_graph _) as [ns es]. simpl in *.
    by rewrite Hnode, Hedge.
Qed.

Lemma lookup_node_filter (P : Z * doc -> Prop) `{!forall x, Decision (P x)}
    (l : list (Z * doc)) (n : Z) (d : doc) :
  NoDup (fst <$> l) -> (n, d) ∈ l -> P (n, d) ->
  lookup_node n (filter P l) = Some d.
Proof.
  intros Hnd Hin HP. apply lookup_node_NoDup.
  - by apply NoDup_fst_filter.
  - by apply list_elem_of_filter.
Qed.

(** X10: nodes written by [sync_nodes] are read back by [__getitem__].
    Start from a database whose two collections hold no document (as
    [__setup_db] leaves it, or without any index), and a writable
    sub-graph with at least one node, pairwise distinct node ids and no
    attribute named ['id'].  After [sync_nodes], an extraction of any
    region of three dimensions through a provider on the same database
    returns a graph without edges, whose nodes are the nodes of the
    sub-graph that lie in the region, each with every attribute it had.
    The ['_id'] that a server adds to the documents it stores is not
    counted among the attributes, and nothing is said about the order of
    the nodes. *)
Theorem X10_sync_nodes_then_extract (self : MongoDbSubRag.t)
    (prov : MongoDbRagProvider.t) (roi : Roi) (w : world) :
  let db := MongoDbSubRag.db_name self in
  let g := MongoDbSubRag.graph self in
  MongoDbRagProvider.db_name prov = db ->
  MongoDbSubRag.mode self <> "r" ->
  node g <> [] ->
  NoDup (fst <$> node g) ->
  (forall n d, (n, d) ∈ node g -> d !! "id" = None) ->
  documents (get_collection (store w) db "nodes") = [] ->
  documents (get_collection (store w) db "edges") = [] ->
  (forall ix, ix ∈ indexes (get_collection (store w) db "nodes") ->
     ix_unique ix = true -> ix_keys ix = ["id"]) ->
  dims roi = 3%nat ->
  exists w1 g' w2,
    MongoDbSubRag.sync_nodes self w = (Ok tt, w1)
    /\ MongoDbRagProvider.__getitem__ prov roi w1 = (Ok g', w2)
    /\ (forall n, is_Some (lookup_node n (node (MongoDbSubRag.graph g')))
                  <-> exists d, (n, d) ∈ node g /\ in_region roi d = true)
    /\ (forall n d, (n, d) ∈ node g -> in_region roi d = true ->
          exists d', lookup_node n (node (MongoDbSubRag.graph g')) = Some d'
                     /\ forall k, k <> "_id" -> d' !! k = d !! k)
    /\ edges (MongoDbSubRag.graph g') = [].
Proof.
  intros db g Hdb Hmode Hne Hnd Hid Hnodes Hedges Hix Hdims.
  destruct (sync_nodes_then_extract_run self prov roi w Hdb Hmode Hne Hnd Hid
              Hnodes Hedges Hix Hdims) as (w1 & g' & w2 & Hsync & Hget & Hgraph).
  exists w1, g', w2. split; [exact Hsync |]. split; [exact Hget |].
  rewrite Hgraph. cbn [node edges]. fold g. split; [| split; [| reflexivity]].
  - intros n. split.
    + intros [d Hd]. exists d. apply lookup_node_elem in Hd.
      apply list_elem_of_filter in Hd as [Hin Hd]. done.
    + intros (d & Hd & Hin). exists d. by apply lookup_node_filter.
  - intros n d Hd Hin. exists d. split; [by apply lookup_node_filter | done].
Qed.

Lemma X10_sync_nodes_then_extract_witness :
  exists w1 g' w2,
    MongoDbSubRag.sync_nodes (sub_rag two_nodes "r+") (no_calls (with_schema "rag" ∅))
    = (Ok tt, w1)
    /\ MongoDbRagProvider.__getitem__ (provider "rag" None "r") (cube 0 5) w1
       = (Ok g', w2)
    /\ is_Some (lookup_node 1 (node (MongoDbSubRag.graph g')))
    /\ ~ is_Some (lookup_node 2 (node (MongoDbSubRag.graph g'))).
Proof.
  destruct (X10_sync_nodes_then_extract (sub_rag two_nodes "r+")
              (provider "rag" None "r") (cube 0 5) (no_calls (with_schema "rag" ∅)))
    as (w1 & g' & w2 & Hsync & Hget & Hnodes & _).
  - reflexivity.
  - discriminate.
  - discriminate.
  - refine (bool_decide_unpack _ _). vm_compute. exact I.
  - intros n d Hin. simpl in Hin.
    apply elem_of_cons in Hin as [[= -> ->] | Hin]; [reflexivity |].
    apply elem_of_cons in Hin as [[= -> ->] | Hin]; [reflexivity |].
    by apply elem_of_nil in Hin.
  - reflexivity.
  - reflexivity.
  - intros ix Hix Hu. vm_compute in Hix.
    apply elem_of_cons in Hix as [-> | Hix]; [discriminate Hu |].
    apply elem_of_cons in Hix as [-> | Hix]; [reflexivity |].
    by apply elem_of_nil in Hix.
  - reflexivity.
  - exists w1, g', w2. split; [exact Hsync |]. split; [exact Hget |]. split.
    + apply Hnodes. exists (position_doc 0 0 0). split; [apply list_elem_of_here |].
      reflexivity.
    + intros Hsome. apply Hnodes in Hsome as (d & Hd & Hin). simpl in Hd.
      apply elem_of_cons in Hd as [Hd | Hd]; [discriminate Hd |].
      apply elem_of_cons in Hd as [Hd | Hd];
        [inversion Hd; subst d; discriminate Hin |].
      by apply elem_of_nil in Hd.
Defined.

Lemma set_set_collection (s : server) (db coll : string) (c c' : collection) :
  set_collection (set_collection s db coll c) db coll c' = set_collection s db coll c'.
Proof.
  unfold set_collection. rewrite lookup_insert_eq. simpl.
  by rewrite !insert_insert_eq.
Qed.

Lemma conflicts_true (c : collection) (ix : IndexModel) (d d' : doc) :
  ix ∈ indexes c -> ix_unique ix = true -> d' ∈ documents c ->
  key_of (ix_keys ix) d' = key_of (ix_keys ix) d ->
  conflicts c d = true.
Proof.
  intros Hix Hu Hd' Heq. unfold conflicts. apply existsb_exists.
  exists ix. split; [by apply list_elem_of_In |]. rewrite Hu. simpl.
  apply existsb_exists. exists d'. split; [by apply list_elem_of_In |].
  by apply bool_decide_eq_true_2.
Qed.

(** X11: rows are written once.  Under the conditions of X9 and with a
    unique index on ['id'] in the nodes collection, a second [sync_nodes]
    of the same sub-graph sends the same batch again, raises
    [BulkWriteError] for its first record and leaves the server as the
    first call left it: no row is duplicated and none is updated. *)
Theorem X11_sync_nodes_twice (self : MongoDbSubRag.t) (w : world) :
  let db := MongoDbSubRag.db_name self in
  let c := get_collection (store w) db "nodes" in
  let g := MongoDbSubRag.graph self in
  MongoDbSubRag.mode self <> "r" ->
  node g <> [] ->
  (forall ix, ix ∈ indexes c -> ix_unique ix = true -> ix_keys ix = ["id"]) ->
  (exists ix, ix ∈ indexes c /\ ix_unique ix = true) ->
  NoDup (fst <$> node g) ->
  (forall n d, (n, d) ∈ node g -> d !! "id" = None) ->
  (forall n d d', (n, d) ∈ node g -> d' ∈ documents c -> d' !! "id" <> Some (VInt n)) ->
  exists w1 r0 rs,
    MongoDbSubRag.sync_nodes self w = (Ok tt, w1)
    /\ node_record <$> node g = r0 :: rs
    /\ MongoDbSubRag.sync_nodes self w1
       = (Raise (BulkWriteError [WriteError 0 r0]),
          {| store := store w1;
             trace := trace w1 ++ [EInsertMany db "nodes" (r0 :: rs) true] |}).
Proof.
  intros db c g Hmode Hne Hix (ix & Hin & Hu) Hnd Hid Hnew.
  destruct (node_record <$> node g) as [| r0 rs] eqn:Hbatch.
  { destruct (node g); [done | discriminate Hbatch]. }
  eexists _, r0, rs. split; [by apply sync_nodes_fresh |].
  split; [reflexivity |].
  rewrite sync_nodes_writable by done. fold g. rewrite sync_nodes_batch, Hbatch.
  unfold insert_many. cbn [store trace]. fold db c.
  rewrite get_set_collection. cbn [insert_batch].
  rewrite (conflicts_true _ ix r0 r0).
  - rewrite set_set_collection. reflexivity.
  - exact Hin.
  - exact Hu.
  - unfold extended. simpl. apply elem_of_app. right. apply list_elem_of_here.
  - reflexivity.
Qed.

Lemma X11_sync_nodes_twice_witness :
  exists w1 r0 rs,
    MongoDbSubRag.sync_nodes (sub_rag two_nodes "r+") (no_calls (with_schema "rag" ∅))
    = (Ok tt, w1)
    /\ node_record <$> node two_nodes = r0 :: rs
    /\ MongoDbSubRag.sync_nodes (sub_rag two_nodes "r+") w1
       = (Raise (BulkWriteError [WriteError 0 r0]),
          {| store := store w1;
             trace := trace w1 ++ [EInsertMany "rag" "nodes" (r0 :: rs) true] |}).
Proof.
  apply (X11_sync_nodes_twice (sub_rag two_nodes "r+") (no_calls (with_schema "rag" ∅))).
  - discriminate.
  - discriminate.
  - intros ix Hix Hu. vm_compute in Hix.
    apply elem_of_cons in Hix as [-> | Hix]; [discriminate Hu |].
    apply elem_of_cons in Hix as [-> | Hix]; [reflexivity |].
    by apply elem_of_nil in Hix.
  - exists id_index. split; [| reflexivity]. vm_compute.
    apply list_elem_of_further, list_elem_of_here.
  - refine (bool_decide_unpack _ _). vm_compute. exact I.
  - intros n d Hin. simpl in Hin.
    apply elem_of_cons in Hin as [[= -> ->] | Hin]; [reflexivity |].
    apply elem_of_cons in Hin as [[= -> ->] | Hin]; [reflexivity |].
    by apply elem_of_nil in Hin.
  - intros n d d' _ Hd'. vm_compute in Hd'. by apply elem_of_nil in Hd'.
Defined.

(** ** Nothing but what the queries returned *)


Lemma add_edges_from_elem (a b : Z) (d : doc) (es : list (Z * Z * doc)) :
  forall g,
    (a, b, d) ∈ edges (add_edges_from g es) ->
    (exists d', (a, b, d') ∈ edges g) \/ (exists dd, (a, b, dd) ∈ es).
Proof.
  induction es as [| [[u v] dd] es IH]; intros g Hin.
  - left. eauto.
  - rewrite add_edges_from_cons in Hin.
    destruct (IH _ Hin) as [[d' Hd'] | [dd' Hdd']].
    + simpl in Hd'. destruct (put_edge_elem _ _ _ _ _ _ _ Hd') as [Hold | [-> ->]].
      * by left.
      * right. exists dd. apply list_elem_of_here.
    + right. exists dd'. by apply list_elem_of_further.
Qed.

Lemma add_nodes_from_present (ns : list (Z * doc)) (n : Z) :
  is_Some (lookup_node n (node (add_nodes_from empty_graph ns))) -> n ∈ fst <$> ns.
Proof.
  intros Hsome. destruct (decide (n ∈ fst <$> ns)) as [Hin | Hout]; [exact Hin |].
  rewrite (add_nodes_from_absent ns empty_graph n eq_refl Hout) in Hsome.
  by apply is_Some_None in Hsome.
Qed.

Lemma endpoint_elem (n : Z) (es : list (Z * Z * doc)) :
  endpoint n es = true -> exists u v dd, (u, v, dd) ∈ es /\ (n = u \/ n = v).
Proof.
  unfold endpoint. intros H. apply existsb_exists in H as ([[u v] dd] & Hin & H).
  exists u, v, dd. split; [by apply list_elem_of_In |].
  apply orb_true_iff in H as [H | H]; apply bool_decide_eq_true_1 in H; eauto.
Qed.

Lemma found_edge (s : server) (db : string) (ids : list Z) (a b : Z) (dd : doc) :
  (forall e, e ∈ edges_from s db ids -> edge_doc_ok e = true) ->
  (a, b, dd) ∈ edge_of <$> edges_from s db ids ->
  a ∈ ids
  /\ exists e, e ∈ documents (get_collection s db "edges")
               /\ e !! "u" = Some (VInt a) /\ e !! "v" = Some (VInt b)
               /\ dd = delete "v" (delete "u" e).
Proof.
  intros Hok Hin. apply list_elem_of_fmap in Hin as (e & Heq & He).
  pose proof (Hok e He) as Hshape.
  apply list_elem_of_filter in He as [Hleaves He].
  unfold edge_doc_ok, leaves_from, edge_of, int_field in *.
  destruct (e !! "u") as [[u | ? ? | ?] |] eqn:Hu;
    try discriminate Hleaves; try (cbn in Hshape; discriminate Hshape).
  destruct (e !! "v") as [[v | ? ? | ?] |] eqn:Hv;
    try (cbn in Hshape; discriminate Hshape).
  simpl in Heq. inversion Heq; subst.
  split; [by apply bool_decide_eq_true_1 in Hleaves |].
  exists e. done.
Qed.

Lemma edges_from_nil (s : server) (db : string) : edges_from s db [] = [].
Proof.
  unfold edges_from.
  induction (documents (get_collection s db "edges")) as [| e l IH]; [reflexivity |].
  rewrite filter_cons. destruct (decide (leaves_from [] e = true)) as [H | _];
    [| exact IH].
  unfold leaves_from in H.
  destruct (e !! "u") as [[u | ? ? | ?] |]; discriminate H.
Qed.

(** X12: an extraction returns nothing but what its two queries found.
    On a region of three dimensions and a store of well-shaped documents,
    [__getitem__] returns a graph in which every edge joins the ['u'] and
    the ['v'] of a persisted edge document whose ['u'] is the id of a
    returned node: an edge whose ['u'] lies outside the region is never
    returned, even when its ['v'] lies inside.  Every node of the graph is
    a returned node, or is the ['v'] of such an edge and has no attribute.
    When the range query returns no node, the graph is empty. *)
Theorem X12_extract_only_found (self : MongoDbRagProvider.t) (roi : Roi)
    (w : world) :
  let db := MongoDbRagProvider.db_name self in
  let ids := id_of <$> nodes_in (store w) db roi in
  let persisted := documents (get_collection (store w) db "edges") in
  dims roi = 3%nat ->
  store_ok (store w) db = true ->
  exists g w',
    MongoDbRagProvider.__getitem__ self roi w = (Ok g, w')
    /\ (forall a b d, (a, b, d) ∈ edges (MongoDbSubRag.graph g) ->
          exists e u v,
            e ∈ persisted /\ e !! "u" = Some (VInt u) /\ e !! "v" = Some (VInt v)
            /\ u ∈ ids /\ ((a = u /\ b = v) \/ (a = v /\ b = u)))
    /\ (forall n d, lookup_node n (node (MongoDbSubRag.graph g)) = Some d ->
          n ∈ ids
          \/ (d = ∅
              /\ exists e u, e ∈ persisted /\ e !! "u" = Some (VInt u) /\ u ∈ ids
                             /\ e !! "v" = Some (VInt n)))
    /\ (ids = [] -> MongoDbSubRag.graph g = empty_graph).
Proof.
  intros db ids persisted Hdims Hok.
  eexists _, _. split; [apply getitem_run; done |].
  cbn [MongoDbSubRag.graph]. fold db.
  assert (Hshape : forall e, e ∈ edges_from (store w) db ids -> edge_doc_ok e = true).
  { intros e He. apply andb_true_iff in Hok as [_ Hedges].
    rewrite forallb_forall in Hedges. apply Hedges, list_elem_of_In.
    apply list_elem_of_filter in He as [_ He]. exact He. }
  unfold extracted. fold ids.
  split; [| split].
  - intros a b d Hin. apply add_edges_from_elem in Hin as [[d' Hin] | [dd Hin]].
    + rewrite add_nodes_from_edges in Hin. by apply elem_of_nil in Hin.
    + destruct (found_edge _ _ _ _ _ _ Hshape Hin) as (Ha & e & He & Hu & Hv & _).
      exists e, a, b. repeat split; try done. by left.
  - intros n d Hn. rewrite lookup_add_edges_from in Hn.
    destruct (lookup_node n (node (add_nodes_from empty_graph
                                     (node_of <$> nodes_in (store w) db roi))))
      as [d0 |] eqn:Hl.
    + left. unfold ids. change id_of with (fst ∘ node_of).
      rewrite list_fmap_compose. apply add_nodes_from_present. rewrite Hl. eauto.
    + destruct (endpoint n _) eqn:Hend; [| discriminate Hn].
      inversion Hn; subst d. apply endpoint_elem in Hend as (u & v & dd & Hin & Huv).
      destruct (found_edge _ _ _ _ _ _ Hshape Hin) as (Hu & e & He & Heu & Hev & _).
      destruct Huv as [-> | ->].
      * left. exact Hu.
      * right. split; [reflexivity |]. exists e, u. done.
  - intros Hnil. unfold ids in Hnil. apply fmap_nil_inv in Hnil.
    unfold ids. rewrite Hnil. simpl.
    by rewrite edges_from_nil.
Qed.

Lemma X12_extract_only_found_witness :
  exists g w',
    MongoDbRagProvider.__getitem__ (provider "rag" None "r+") (cube 0 5)
      (no_calls populated) = (Ok g, w')
    /\ forall n d, lookup_node n (node (MongoDbSubRag.graph g)) = Some d ->
         n ∈ id_of <$> nodes_in populated "rag" (cube 0 5)
         \/ (d = ∅
             /\ exists e u,
                  e ∈ documents (get_collection populated "rag" "edges")
                  /\ e !! "u" = Some (VInt u)
                  /\ u ∈ id_of <$> nodes_in populated "rag" (cube 0 5)
                  /\ e !! "v" = Some (VInt n)).
Proof.
  destruct (X12_extract_only_found (provider "rag" None "r+") (cube 0 5)
              (no_calls populated)) as (g & w' & Hrun & _ & Hnodes & _);
    [reflexivity | reflexivity |].
  exists g, w'. split; [exact Hrun | exact Hnodes].
Defined.

(** ** Two regions writing the edges of one graph *)

Lemma sync_edges_run (self : MongoDbSubRag.t) (roi : Roi) (w : world) :
  let g := MongoDbSubRag.graph self in
  dims roi = 3%nat ->
  nodes_ok g = true ->
  endpoints_ok g = true ->
  MongoDbSubRag.mode self <> "r" ->
  MongoDbSubRag.sync_edges self roi w
  = match edge_record
            <$> filter (fun e => owns g roi (fst (canonical e)) = true) (edges g) with
    | [] => (Ok tt, w)
    | r :: rs =>
        insert_many (MongoDbSubRag.db_name self) "edges" (r :: rs) true w
    end.
Proof.
  intros g Hdims Hnodes Hends Hmode.
  rewrite sync_edges_writable by done.
  rewrite (sync_edges_loop_spec self roi
             (fun e => if owns g roi (fst (canonical e))
                       then Some (edge_record e) else None)).
  - simpl. rewrite omap_owned. reflexivity.
  - intros [[a b] data] He. apply sync_edges_body_owns; try done.
    eapply endpoints_ok_min; eassumption.
Qed.

Lemma NoDup_fmap_filter {A B} (f : A -> B) (P : A -> Prop)
    `{!forall x, Decision (P x)} (l : list A) :
  NoDup (f <$> l) -> NoDup (f <$> filter P l).
Proof.
  induction l as [| x l IH]; [done |]. rewrite fmap_cons, filter_cons.
  intros Hnd. apply NoDup_cons in Hnd as [Hx Hnd].
  destruct (decide (P x)); [| by apply IH].
  rewrite fmap_cons. apply NoDup_cons. split; [| by apply IH].
  intros Hin. apply Hx. apply list_elem_of_fmap in Hin as (y & -> & Hy).
  apply list_elem_of_filter in Hy as [_ Hy]. by apply list_elem_of_fmap_2.
Qed.

Lemma edge_record_key (e : Z * Z * doc) :
  snd e !! "u" = None -> snd e !! "v" = None ->
  key_of ["u"; "v"] (edge_record e)
  = [Some (VInt (fst (canonical e))); Some (VInt (snd (canonical e)))].
Proof.
  destruct e as [[a b] data]. simpl. apply key_of_edge_record.
Qed.

Lemma edge_record_keys_NoDup (l : list (Z * Z * doc)) :
  (forall e, e ∈ l -> snd e !! "u" = None /\ snd e !! "v" = None) ->
  NoDup (canonical <$> l) ->
  NoDup (key_of ["u"; "v"] <$> (edge_record <$> l)).
Proof.
  intros Hattrs Hnd. rewrite <- list_fmap_compose.
  apply (NoDup_fmap_2_strong _ l); [| by apply (NoDup_fmap_1 canonical)].
  intros e1 e2 H1 H2 Heq. unfold compose in Heq.
  destruct (Hattrs e1 H1) as [Hu1 Hv1]. destruct (Hattrs e2 H2) as [Hu2 Hv2].
  rewrite !edge_record_key in Heq by done.
  assert (Hc : canonical e1 = canonical e2).
  { destruct (canonical e1), (canonical e2). simpl in Heq. congruence. }
  apply list_elem_of_lookup in H1 as [i1 Hi1], H2 as [i2 Hi2].
  assert (i1 = i2).
  { apply (NoDup_lookup (canonical <$> l) i1 i2 (canonical e1)); [exact Hnd | |].
    - rewrite list_lookup_fmap, Hi1. reflexivity.
    - rewrite list_lookup_fmap, Hi2. simpl. by rewrite Hc. }
  congruence.
Qed.

(** The edges that a region owns are written whole when none of them is
    stored yet. *)
Lemma sync_edges_fresh (self : MongoDbSubRag.t) (roi : Roi) (w : world) :
  let db := MongoDbSubRag.db_name self in
  let c := get_collection (store w) db "edges" in
  let g := MongoDbSubRag.graph self in
  let batch :=
    edge_record <$> filter (fun e => owns g roi (fst (canonical e)) = true) (edges g) in
  dims roi = 3%nat ->
  nodes_ok g = true ->
  endpoints_ok g = true ->
  MongoDbSubRag.mode self <> "r" ->
  NoDup (canonical <$> edges g) ->
  (forall e, e ∈ edges g -> snd e !! "u" = None /\ snd e !! "v" = None) ->
  (forall ix, ix ∈ indexes c -> ix_unique ix = true -> ix_keys ix = ["u"; "v"]) ->
  (forall r d', r ∈ batch -> d' ∈ documents c ->
     key_of ["u"; "v"] d' <> key_of ["u"; "v"] r) ->
  exists w',
    MongoDbSubRag.sync_edges self roi w = (Ok tt, w')
    /\ documents (get_collection (store w') db "edges") = documents c ++ batch
    /\ indexes (get_collection (store w') db "edges") = indexes c.
Proof.
  intros db c g batch Hdims Hnodes Hends Hmode Hsimple Hattrs Hix Hnew.
  rewrite sync_edges_run by done. fold g batch.
  destruct batch as [| r rs] eqn:Hbatch.
  { exists w. by rewrite app_nil_r. }
  rewrite insert_many_all.
  - eexists. split; [reflexivity |]. cbn [store].
    rewrite get_set_collection. done.
  - discriminate.
  - intros ix Hin Hu. fold db c in Hin. rewrite (Hix ix Hin Hu). split.
    + rewrite <- Hbatch. unfold batch. apply edge_record_keys_NoDup.
      * intros e He. apply list_elem_of_filter in He as [_ He]. by apply Hattrs.
      * by apply NoDup_fmap_filter.
    + intros r' d' Hr' Hd'. by apply Hnew.
Qed.

(** X13: two regions that share no position write the edges of one graph
    without meeting each other.  Take a writable sub-graph that fits the
    data model, whose edges have pairwise distinct canonical keys and no
    attribute named ['u'] or ['v'], and an edges collection without
    documents whose only unique indexes are on [(u, v)].  [sync_edges] for
    the first region and then for the second both return; the collection
    holds the records of the edges owned by the first region followed by
    those owned by the second, and no two of these records have the same
    key [(u, v)]: every edge owned by one of the regions is stored once. *)
Theorem X13_two_regions_compose (self : MongoDbSubRag.t) (r1 r2 : Roi) (w : world) :
  let db := MongoDbSubRag.db_name self in
  let c := get_collection (store w) db "edges" in
  let g := MongoDbSubRag.graph self in
  let batch := fun r =>
    edge_record <$> filter (fun e => owns g r (fst (canonical e)) = true) (edges g) in
  dims r1 = 3%nat -> dims r2 = 3%nat ->
  (forall p, inside r1 p = true -> inside r2 p = true -> False) ->
  nodes_ok g = true ->
  endpoints_ok g = true ->
  MongoDbSubRag.mode self <> "r" ->
  NoDup (canonical <$> edges g) ->
  (forall e, e ∈ edges g -> snd e !! "u" = None /\ snd e !! "v" = None) ->
  documents c = [] ->
  (forall ix, ix ∈ indexes c -> ix_unique ix = true -> ix_keys ix = ["u"; "v"]) ->
  exists w1 w2,
    MongoDbSubRag.sync_edges self r1 w = (Ok tt, w1)
    /\ MongoDbSubRag.sync_edges self r2 w1 = (Ok tt, w2)
    /\ documents (get_collection (store w1) db "edges") = batch r1
    /\ documents (get_collection (store w2) db "edges") = batch r1 ++ batch r2
    /\ NoDup (key_of ["u"; "v"] <$> (batch r1 ++ batch r2)).
Proof.
  intros db c g batch Hd1 Hd2 Hsep Hnodes Hends Hmode Hsimple Hattrs Hempty Hix.
  assert (Hcross : forall x y, x ∈ batch r2 -> y ∈ batch r1 ->
            key_of ["u"; "v"] y <> key_of ["u"; "v"] x).
  { intros x y Hx Hy.
    apply list_elem_of_fmap in Hx as (e2 & -> & He2).
    apply list_elem_of_fmap in Hy as (e1 & -> & He1).
    apply list_elem_of_filter in He1 as [Ho1 He1].
    apply list_elem_of_filter in He2 as [Ho2 He2].
    destruct (Hattrs e1 He1) as [Hu1 Hv1]. destruct (Hattrs e2 He2) as [Hu2 Hv2].
    rewrite !edge_record_key by done. intros [= Hfst _].
    rewrite Hfst in Ho1. exact (owns_exclusive g r1 r2 _ Hsep Ho1 Ho2). }
  destruct (sync_edges_fresh self r1 w) as (w1 & Hrun1 & Hdocs1 & Hix1); try done.
  { fold db c. rewrite Hempty. intros r d' _ Hd'. by apply elem_of_nil in Hd'. }
  fold db c g in Hdocs1, Hix1. rewrite Hempty in Hdocs1. simpl in Hdocs1.
  destruct (sync_edges_fresh self r2 w1) as (w2 & Hrun2 & Hdocs2 & _); try done.
  { fold db. rewrite Hix1. exact Hix. }
  { fold db g. rewrite Hdocs1. intros r d' Hr Hd'. by apply Hcross. }
  fold db g in Hdocs2. rewrite Hdocs1 in Hdocs2.
  exists w1, w2. repeat split; try done.
  rewrite fmap_app. apply NoDup_app. split; [| split].
  - apply edge_record_keys_NoDup.
    + intros e He. apply list_elem_of_filter in He as [_ He]. by apply Hattrs.
    + by apply NoDup_fmap_filter.
  - intros k Hk1 Hk2.
    apply list_elem_of_fmap in Hk1 as (y & -> & Hy).
    apply list_elem_of_fmap in Hk2 as (x & Heq & Hx).
    exact (Hcross x y Hx Hy Heq).
  - apply edge_record_keys_NoDup.
    + intros e He. apply list_elem_of_filter in He as [_ He]. by apply Hattrs.
    + by apply NoDup_fmap_filter.
Qed.

Lemma X13_two_regions_compose_witness :
  exists w1 w2,
    MongoDbSubRag.sync_edges (sub_rag corner_graph "r+") (cube 0 5)
      (no_calls (with_schema "rag" ∅)) = (Ok tt, w1)
    /\ MongoDbSubRag.sync_edges (sub_rag corner_graph "r+") (cube 5 10) w1 = (Ok tt, w2)
    /\ documents (get_collection (store w2) "rag" "edges") = [edge_record (7, 3, ∅)].
Proof.
  destruct (X13_two_regions_compose (sub_rag corner_graph "r+") (cube 0 5) (cube 5 10)
              (no_calls (with_schema "rag" ∅)))
    as (w1 & w2 & H1 & H2 & _ & Hdocs & _).
  - reflexivity.
  - reflexivity.
  - intros p. apply separated_exclusive. reflexivity.
  - reflexivity.
  - reflexivity.
  - discriminate.
  - refine (bool_decide_unpack _ _). vm_compute. exact I.
  - intros e He. simpl in He. apply list_elem_of_singleton in He as ->. done.
  - reflexivity.
  - intros ix Hin Hu. vm_compute in Hin.
    apply list_elem_of_singleton in Hin as ->. reflexivity.
  - exists w1, w2. split; [exact H1 |]. split; [exact H2 |]. exact Hdocs.
Defined.
